(** * Smart Bookmark App: the bookmark manager component and its store

    A shallow embedding of [src/components/bookmark-manager.tsx] (the
    iteration with search, sort and the delete confirmation dialog, lines
    255-678) and of the table, policies and trigger of the SQL schema
    ([src/unnamed/part_000]); further down, of the rest of the component,
    of the handlers of its earlier iteration and of [HomePage]
    ([src/app/page.tsx]).

    Conventions of the embedding.
    - A JavaScript string is a [string]: the sequence of its code units,
      restricted to code units below 256 (Latin-1).  [trim], [toLowerCase]
      and [includes] are the built-ins on that range.
    - The built-ins whose result depends on the host ([new URL],
      [localeCompare], the textual form of a [timestamptz]) are the fields
      of the class [Host].
    - React state is the record [State]; an event handler is a computation
      in the monad [M] over a [Tab]: the component state together with the
      [World] it talks to (the table behind the Supabase client, the session,
      the log of requests, the messages posted to broadcast channels).
    - A handler runs to completion: what other events do between an [await]
      and its continuation is not modelled. *)

From Stdlib Require Import ZArith Ascii String List Sorted Permutation Lia Bool DecimalString.
From stdpp Require Import base strings list gmap.
From stdpp Require Import sorting.

Local Open Scope Z_scope.

(** ** Stable sorting

    Both the array sort of the component and the [order by] of the store are
    stable sorts by a three-way comparison; here insertion from the right,
    where an element goes before the first later element it does not compare
    greater than. *)

Section StableSort.
Context {A : Type} (compareFn : A -> A -> Z).

Fixpoint stable_insert (x : A) (l : list A) : list A :=
  match l with
  | [] => [x]
  | y :: l' => if compareFn x y <=? 0 then x :: l else y :: stable_insert x l'
  end.

Fixpoint stable_sort (l : list A) : list A :=
  match l with
  | [] => []
  | x :: l' => stable_insert x (stable_sort l')
  end.
End StableSort.

(** ** JavaScript strings and arrays *)

Module JS.

(** WhiteSpace and LineTerminator code units below 256: TAB, LF, VT, FF,
    CR, SPACE and NO-BREAK SPACE. *)
Definition isWhiteSpace (c : ascii) : bool :=
  let n := N_of_ascii c in
  (N.eqb n 9 || N.eqb n 10 || N.eqb n 11 || N.eqb n 12 || N.eqb n 13
   || N.eqb n 32 || N.eqb n 160)%bool.

Fixpoint trimStart (s : string) : string :=
  match s with
  | EmptyString => EmptyString
  | String c s' => if isWhiteSpace c then trimStart s' else s
  end.

Fixpoint trimEnd (s : string) : string :=
  match s with
  | EmptyString => EmptyString
  | String c s' =>
      match trimEnd s' with
      | EmptyString => if isWhiteSpace c then EmptyString else String c EmptyString
      | t => String c t
      end
  end.

(** [String.prototype.trim] *)
Definition trim (s : string) : string := trimEnd (trimStart s).

(** Lower-case mapping of one code unit below 256: A-Z, and the capital
    letters U+00C0..U+00DE except the multiplication sign U+00D7. *)
Definition toLowerCase_unit (c : ascii) : ascii :=
  let n := N_of_ascii c in
  if ((N.leb 65 n && N.leb n 90)
      || (N.leb 192 n && N.leb n 222 && negb (N.eqb n 215)))%bool
  then ascii_of_N (n + 32) else c.

(** [String.prototype.toLowerCase] *)
Fixpoint toLowerCase (s : string) : string :=
  match s with
  | EmptyString => EmptyString
  | String c s' => String (toLowerCase_unit c) (toLowerCase s')
  end.

(** [s.includes(q)]: [q] occurs in [s] at some position. *)
Fixpoint includes (s q : string) : bool :=
  (String.prefix q s
   || match s with
      | EmptyString => false
      | String _ s' => includes s' q
      end)%bool.

(** Truthiness of a string: every string but the empty one. *)
Definition truthy (s : string) : bool :=
  match s with EmptyString => false | String _ _ => true end.

(** Truthiness of [string | null]. *)
Definition truthy_opt (o : option string) : bool :=
  match o with None => false | Some s => truthy s end.

(** [Array.prototype.sort(compareFn)]: the sort is stable, so for a
    consistent [compareFn] its result is the one of any stable sort. *)
Abbreviation sort := stable_sort.

(** [s.charAt(i)]: the code unit at [i] as a string, the empty string out of
    range. *)
Fixpoint charAt (s : string) (i : nat) : string :=
  match s, i with
  | EmptyString, _ => EmptyString
  | String c _, O => String c EmptyString
  | String _ s', S i' => charAt s' i'
  end.

(** Upper-case mapping of one code unit below 256.  The small letters a-z
    and U+00E0..U+00FE except the division sign U+00F7 move down by 32; the
    sharp s U+00DF becomes "SS"; the micro sign U+00B5 and U+00FF have their
    upper case above 255, outside what a [string] holds here: [None]. *)
Definition toUpperCase_unit (c : ascii) : option string :=
  let n := N_of_ascii c in
  if ((N.leb 97 n && N.leb n 122)
      || (N.leb 224 n && N.leb n 254 && negb (N.eqb n 247)))%bool
  then Some (String (ascii_of_N (n - 32)) EmptyString)
  else if N.eqb n 223 then Some (String "S" (String "S" EmptyString))
  else if (N.eqb n 181 || N.eqb n 255)%bool then None
  else Some (String c EmptyString).

(** [String.prototype.toUpperCase] *)
Fixpoint toUpperCase (s : string) : option string :=
  match s with
  | EmptyString => Some EmptyString
  | String c s' =>
      match toUpperCase_unit c, toUpperCase s' with
      | Some u, Some t => Some (u +:+ t)
      | _, _ => None
      end
  end.

End JS.

(** ** What the host provides *)

(** A parsed URL, as far as the component reads it. *)
Record URL := { protocol : string; href : string }.

(** [parsedUrl.toString()] *)
Definition URL_toString (u : URL) : string := href u.

Class Host := {
  (** [new URL(s)]; [None] when the constructor throws. *)
  URL_parse : string -> option URL;
  (** [new URL("")] throws: the empty string has no scheme. *)
  URL_parse_empty : URL_parse EmptyString = None;
  (** [a.localeCompare(b)] *)
  localeCompare : string -> string -> Z;
  (** the text PostgREST returns for a [timestamptz] *)
  timestamptz_out : Z -> string
}.

(** A consistent comparator, as [Array.prototype.sort] asks of its argument
    for a defined order. *)
Class ConsistentCollation (H : Host) : Prop := {
  localeCompare_flip : forall a b, 0 < localeCompare a b -> localeCompare b a <= 0;
  localeCompare_trans : forall a b c,
    localeCompare a b <= 0 -> localeCompare b c <= 0 -> localeCompare a c <= 0
}.

(** ** Data of the component *)

Module Bookmark.
(** [type Bookmark] *)
Record t := mk { id : string; title : string; url : string; created_at : string }.
End Bookmark.
Abbreviation Bookmark := Bookmark.t.

(** [sortBy] *)
Inductive SortBy := latest | oldest | az.

(** [authMode] *)
Inductive AuthMode := signup | login.

(** [type BookmarkManagerProps] *)
Record Props := {
  isAuthenticated : bool;
  userId : option string;
  userEmail : option string
}.

(** The [useState] cells of [BookmarkManager]. *)
Record State := {
  bookmarks : list Bookmark;
  title : string;
  url : string;
  search : string;
  sortBy : SortBy;
  loading : bool;
  error : option string;
  signingOut : bool;
  deleteTarget : option Bookmark;
  deleteLoading : bool;
  authMode : AuthMode;
  authLoading : bool
}.

(** ** The derived view *)

Section View.
Context `{Host}.

(** The comparator passed to [sort]. *)
Definition compareFn (by_ : SortBy) (a b : Bookmark) : Z :=
  match by_ with
  | oldest => localeCompare (Bookmark.created_at a) (Bookmark.created_at b)
  | az => localeCompare (Bookmark.title a) (Bookmark.title b)
  | latest => localeCompare (Bookmark.created_at b) (Bookmark.created_at a)
  end.

(** [const sortedBookmarks = [...bookmarks].sort(...)] *)
Definition sortedBookmarks (s : State) : list Bookmark :=
  JS.sort (compareFn (sortBy s)) (bookmarks s).

(** The callback of [sortedBookmarks.filter]. *)
Definition matchesSearch (s : State) (bookmark : Bookmark) : bool :=
  let query := JS.toLowerCase (JS.trim (search s)) in
  if negb (JS.truthy query) then true
  else (JS.includes (JS.toLowerCase (Bookmark.title bookmark)) query
        || JS.includes (JS.toLowerCase (Bookmark.url bookmark)) query)%bool.

(** [const filteredBookmarks = sortedBookmarks.filter(...)] *)
Definition filteredBookmarks (s : State) : list Bookmark :=
  List.filter (matchesSearch s) (sortedBookmarks s).
End View.


(** ** The table, its policies and its trigger *)

Module Schema.
(** A row of [public.bookmarks]; [created_at] is a [timestamptz], here the
    microseconds since the epoch. *)
Record bookmarks := mk {
  id : string;
  user_id : string;
  title : string;
  url : string;
  created_at : Z
}.

(** The row an [insert] proposes, before defaults and constraints: the
    columns a client can name that the model follows.  [id] and [created_at]
    always take their defaults; the component never sends them. *)
Record new_row := mk_new {
  new_user_id : option string;
  new_title : option string;
  new_url : option string
}.
End Schema.

(** [auth.uid() = user_id]; with no session [auth.uid()] is null and the
    comparison is not true. *)
Definition auth_uid_eq (uid : option string) (user_id : string) : bool :=
  match uid with
  | Some u => String.eqb u user_id
  | None => false
  end.

(** [create policy "Users can read own bookmarks" ... for select using (auth.uid() = user_id)] *)
Definition policy_read_own (uid : option string) (r : Schema.bookmarks) : bool :=
  auth_uid_eq uid (Schema.user_id r).

(** [create policy "Users can insert own bookmarks" ... for insert with check (auth.uid() = user_id)],
    on the row an insert proposes, as the before-insert trigger left it; a
    null owner is not the caller. *)
Definition policy_insert_own (uid : option string) (new : Schema.new_row) : bool :=
  match Schema.new_user_id new with
  | Some user_id => auth_uid_eq uid user_id
  | None => false
  end.

(** [create policy "Users can delete own bookmarks" ... for delete using (auth.uid() = user_id)] *)
Definition policy_delete_own (uid : option string) (r : Schema.bookmarks) : bool :=
  auth_uid_eq uid (Schema.user_id r).

(** [public.set_bookmark_user_id()]: [new.user_id := auth.uid(); return new;] *)
Definition set_bookmark_user_id (uid : option string) (new : Schema.new_row) : Schema.new_row :=
  Schema.mk_new uid (Schema.new_title new) (Schema.new_url new).

(** What [{ data, error }] of a Supabase call holds; [error] is the message. *)
Module Response.
Record t (A : Type) := mk { data : option A; error : option string }.
Arguments mk {A} _ _.
Arguments data {A} _.
Arguments error {A} _.
End Response.
Abbreviation Response := Response.t.

(** A command of the client on the table [bookmarks]. *)
Inductive Request :=
| Select (columns : string) (order_column : string) (ascending : bool)
| Insert (values : gmap string string)
| Delete_eq (column : string) (value : string).

(** Everything outside the component. *)
Record World := {
  (** the rows of [public.bookmarks], in insertion order *)
  db : list Schema.bookmarks;
  (** [auth.uid()] of the session the client sends *)
  auth_uid : option string;
  (** for each coming request, whether it fails before it takes effect
      (store unreachable, store-side error) and with which message *)
  faults : list (option string);
  (** [gen_random_uuid()], by the number of rows inserted so far *)
  gen_random_uuid : nat -> string;
  serial : nat;
  (** [now()] *)
  now : Z;
  (** the requests issued so far, oldest first *)
  requests : list Request;
  (** [typeof window !== "undefined" && "BroadcastChannel" in window] *)
  BroadcastChannel_in_window : bool;
  (** the messages posted so far: channel name and [type], oldest first *)
  posted : list (string * string)
}.

Definition with_db (v : list Schema.bookmarks) (w : World) : World :=
  {| db := v; auth_uid := auth_uid w; faults := faults w;
     gen_random_uuid := gen_random_uuid w; serial := serial w; now := now w;
     requests := requests w;
     BroadcastChannel_in_window := BroadcastChannel_in_window w;
     posted := posted w |}.

Definition with_faults (v : list (option string)) (w : World) : World :=
  {| db := db w; auth_uid := auth_uid w; faults := v;
     gen_random_uuid := gen_random_uuid w; serial := serial w; now := now w;
     requests := requests w;
     BroadcastChannel_in_window := BroadcastChannel_in_window w;
     posted := posted w |}.

Definition with_serial (v : nat) (w : World) : World :=
  {| db := db w; auth_uid := auth_uid w; faults := faults w;
     gen_random_uuid := gen_random_uuid w; serial := v; now := now w;
     requests := requests w;
     BroadcastChannel_in_window := BroadcastChannel_in_window w;
     posted := posted w |}.

Definition with_requests (v : list Request) (w : World) : World :=
  {| db := db w; auth_uid := auth_uid w; faults := faults w;
     gen_random_uuid := gen_random_uuid w; serial := serial w; now := now w;
     requests := v;
     BroadcastChannel_in_window := BroadcastChannel_in_window w;
     posted := posted w |}.

Definition with_posted (v : list (string * string)) (w : World) : World :=
  {| db := db w; auth_uid := auth_uid w; faults := faults w;
     gen_random_uuid := gen_random_uuid w; serial := serial w; now := now w;
     requests := requests w;
     BroadcastChannel_in_window := BroadcastChannel_in_window w;
     posted := v |}.

(** *** The store's side of the three commands *)

Section Store.
Context `{Host}.

(** The columns [id,title,url,created_at] of a row, as the client gets them. *)
Definition to_Bookmark (r : Schema.bookmarks) : Bookmark :=
  Bookmark.mk (Schema.id r) (Schema.title r) (Schema.url r)
    (timestamptz_out (Schema.created_at r)).

(** [order by created_at desc]: a row goes after the rows created later. *)
Definition created_at_desc (a b : Schema.bookmarks) : Z :=
  Schema.created_at b - Schema.created_at a.

(** [select id,title,url,created_at from bookmarks order by created_at desc]
    under the select policy. *)
Definition store_select (w : World) : Response (list Bookmark) * World :=
  let visible := List.filter (policy_read_own (auth_uid w)) (db w) in
  (Response.mk (Some (List.map to_Bookmark (stable_sort created_at_desc visible))) None, w).

(** [insert into bookmarks (...) values (...)]: the before-insert trigger,
    then the insert policy on the proposed row, then the not-null
    constraints, with the defaults of [id] and [created_at]. *)
Definition store_insert (values : gmap string string) (w : World)
  : Response unit * World :=
  let new := set_bookmark_user_id (auth_uid w)
               (Schema.mk_new (values !! "user_id") (values !! "title") (values !! "url")) in
  if policy_insert_own (auth_uid w) new
  then
    match Schema.new_user_id new, Schema.new_title new, Schema.new_url new with
    | Some u, Some t, Some l =>
        let r := Schema.mk (gen_random_uuid w (serial w)) u t l (now w) in
        (Response.mk None None,
         with_serial (S (serial w)) (with_db (db w ++ [r]) w))
    | _, _, _ =>
        (Response.mk None (Some "null value in a column violates not-null constraint"), w)
    end
  else
    (Response.mk None
       (Some "new row violates row-level security policy for table bookmarks"), w).

(** [delete from bookmarks where id = value] under the delete policy: the
    rows the policy does not let the caller see are skipped, and skipping
    them is not an error. *)
Definition store_delete (value : string) (w : World) : Response unit * World :=
  let doomed (r : Schema.bookmarks) : bool :=
    (policy_delete_own (auth_uid w) r && String.eqb (Schema.id r) value)%bool in
  (Response.mk None None, with_db (List.filter (fun r => negb (doomed r)) (db w)) w).

End Store.

(** ** Event handlers *)

(** One open tab: the component's state and the world around it. *)
Record Tab := { state : State; world : World }.

(** A handler reads and writes the tab and runs to completion. *)
Definition M (A : Type) : Type := Tab -> A * Tab.

#[global] Instance M_ret : MRet M := fun A a t => (a, t).
#[global] Instance M_bind : MBind M := fun A B f m t => let r := m t in f r.1 r.2.

Definition getState : M State := fun t => (state t, t).
Definition getWorld : M World := fun t => (world t, t).
Definition modifyState (f : State -> State) : M unit :=
  fun t => (tt, {| state := f (state t); world := world t |}).
Definition modifyWorld (f : World -> World) : M unit :=
  fun t => (tt, {| state := state t; world := f (world t) |}).

(** The state a handler leaves, and the world it leaves. *)
Definition state_after {A} (m : M A) (t : Tab) : State := state (m t).2.
Definition world_after {A} (m : M A) (t : Tab) : World := world (m t).2.

(** *** The setters of [useState] *)

Definition with_bookmarks (v : list Bookmark) (s : State) : State :=
  {| bookmarks := v; title := title s; url := url s; search := search s;
     sortBy := sortBy s; loading := loading s; error := error s;
     signingOut := signingOut s; deleteTarget := deleteTarget s;
     deleteLoading := deleteLoading s; authMode := authMode s;
     authLoading := authLoading s |}.

Definition with_title (v : string) (s : State) : State :=
  {| bookmarks := bookmarks s; title := v; url := url s; search := search s;
     sortBy := sortBy s; loading := loading s; error := error s;
     signingOut := signingOut s; deleteTarget := deleteTarget s;
     deleteLoading := deleteLoading s; authMode := authMode s;
     authLoading := authLoading s |}.

Definition with_url (v : string) (s : State) : State :=
  {| bookmarks := bookmarks s; title := title s; url := v; search := search s;
     sortBy := sortBy s; loading := loading s; error := error s;
     signingOut := signingOut s; deleteTarget := deleteTarget s;
     deleteLoading := deleteLoading s; authMode := authMode s;
     authLoading := authLoading s |}.

Definition with_search (v : string) (s : State) : State :=
  {| bookmarks := bookmarks s; title := title s; url := url s; search := v;
     sortBy := sortBy s; loading := loading s; error := error s;
     signingOut := signingOut s; deleteTarget := deleteTarget s;
     deleteLoading := deleteLoading s; authMode := authMode s;
     authLoading := authLoading s |}.

Definition with_sortBy (v : SortBy) (s : State) : State :=
  {| bookmarks := bookmarks s; title := title s; url := url s; search := search s;
     sortBy := v; loading := loading s; error := error s;
     signingOut := signingOut s; deleteTarget := deleteTarget s;
     deleteLoading := deleteLoading s; authMode := authMode s;
     authLoading := authLoading s |}.

Definition with_loading (v : bool) (s : State) : State :=
  {| bookmarks := bookmarks s; title := title s; url := url s; search := search s;
     sortBy := sortBy s; loading := v; error := error s;
     signingOut := signingOut s; deleteTarget := deleteTarget s;
     deleteLoading := deleteLoading s; authMode := authMode s;
     authLoading := authLoading s |}.

Definition with_error (v : option string) (s : State) : State :=
  {| bookmarks := bookmarks s; title := title s; url := url s; search := search s;
     sortBy := sortBy s; loading := loading s; error := v;
     signingOut := signingOut s; deleteTarget := deleteTarget s;
     deleteLoading := deleteLoading s; authMode := authMode s;
     authLoading := authLoading s |}.

Definition with_deleteTarget (v : option Bookmark) (s : State) : State :=
  {| bookmarks := bookmarks s; title := title s; url := url s; search := search s;
     sortBy := sortBy s; loading := loading s; error := error s;
     signingOut := signingOut s; deleteTarget := v;
     deleteLoading := deleteLoading s; authMode := authMode s;
     authLoading := authLoading s |}.

Definition with_deleteLoading (v : bool) (s : State) : State :=
  {| bookmarks := bookmarks s; title := title s; url := url s; search := search s;
     sortBy := sortBy s; loading := loading s; error := error s;
     signingOut := signingOut s; deleteTarget := deleteTarget s;
     deleteLoading := v; authMode := authMode s;
     authLoading := authLoading s |}.

(** [setBookmarks(v)] and [setBookmarks((current) => f(current))] *)
Definition setBookmarks (v : list Bookmark) : M unit := modifyState (with_bookmarks v).
Definition setBookmarks_fn (f : list Bookmark -> list Bookmark) : M unit :=
  modifyState (fun s => with_bookmarks (f (bookmarks s)) s).
Definition setTitle (v : string) : M unit := modifyState (with_title v).
Definition setUrl (v : string) : M unit := modifyState (with_url v).
Definition setSearch (v : string) : M unit := modifyState (with_search v).
Definition setSortBy (v : SortBy) : M unit := modifyState (with_sortBy v).
Definition setLoading (v : bool) : M unit := modifyState (with_loading v).
Definition setError (v : option string) : M unit := modifyState (with_error v).
Definition setDeleteTarget (v : option Bookmark) : M unit := modifyState (with_deleteTarget v).
Definition setDeleteLoading (v : bool) : M unit := modifyState (with_deleteLoading v).

(** *** The Supabase client *)

(** The world once the request [r] has left: it is logged, and the world's
    word on its fate is used up. *)
Definition issued (r : Request) (w : World) : World :=
  with_faults (tail (faults w)) (with_requests (requests w ++ [r]) w).

(** [await supabase.from("bookmarks")...]: the request is issued; it fails
    with a message when the world says so, and is served by the store
    otherwise. *)
Definition supabase_request {A} (r : Request)
    (serve : World -> Response A * World) : M (Response A) :=
  fun t =>
    match faults (world t) with
    | Some message :: _ =>
        (Response.mk None (Some message),
         {| state := state t; world := issued r (world t) |})
    | _ =>
        let a := serve (issued r (world t)) in
        (a.1, {| state := state t; world := a.2 |})
    end.

Section Component.
Context `{Host}.
Variable props : Props.

(** [.select("id,title,url,created_at").order("created_at", { ascending: false })] *)
Definition supabase_select : M (Response (list Bookmark)) :=
  supabase_request (Select "id,title,url,created_at" "created_at" false) store_select.

(** [.insert(values)] *)
Definition supabase_insert (values : gmap string string) : M (Response unit) :=
  supabase_request (Insert values) (store_insert values).

(** [.delete().eq("id", value)] *)
Definition supabase_delete_eq_id (value : string) : M (Response unit) :=
  supabase_request (Delete_eq "id" value) (store_delete value).

(** [loadBookmarks] *)
Definition loadBookmarks : M unit :=
  if negb (JS.truthy_opt (userId props)) then mret tt
  else
    r ← supabase_select;
    match Response.error r with
    | Some message => setError (Some message)
    | None => setBookmarks (default [] (Response.data r))
    end.

(** The name in [new BroadcastChannel(`bookmarks-sync-${userId}`)]. *)
Definition tabChannel_name (userId : string) : string := "bookmarks-sync-" +:+ userId.

(** [notifyTabs] *)
Definition notifyTabs : M unit :=
  w ← getWorld;
  match userId props with
  | Some u =>
      if (negb (JS.truthy u) || negb (BroadcastChannel_in_window w))%bool then mret tt
      else modifyWorld (fun w => with_posted (posted w ++ [(tabChannel_name u, "bookmarks-changed")]) w)
  | None => mret tt
  end.

(** [handleAdd] *)
Definition handleAdd : M unit :=
  s ← getState;
  setError None;;
  if (negb (JS.truthy (JS.trim (title s))) || negb (JS.truthy (JS.trim (url s))))%bool
  then setError (Some "Title and URL are required.")
  else
    match URL_parse (JS.trim (url s)) with
    | None => setError (Some "Please enter a valid URL.")
    | Some parsedUrl =>
        if (negb (String.eqb (protocol parsedUrl) "http:")
            && negb (String.eqb (protocol parsedUrl) "https:"))%bool
        then setError (Some "URL must start with http:// or https://")
        else
          setLoading true;;
          r ← supabase_insert
                (<["title" := JS.trim (title s)]>
                   (<["url" := URL_toString parsedUrl]> ∅));
          setLoading false;;
          match Response.error r with
          | Some message => setError (Some message)
          | None =>
              setTitle "";;
              setUrl "";;
              loadBookmarks;;
              notifyTabs
          end
    end.

(** [handleDelete] *)
Definition handleDelete : M unit :=
  s ← getState;
  match deleteTarget s with
  | None => mret tt
  | Some target =>
      setError None;;
      setDeleteLoading true;;
      r ← supabase_delete_eq_id (Bookmark.id target);
      setDeleteLoading false;;
      match Response.error r with
      | Some message => setError (Some message)
      | None =>
          setBookmarks_fn
            (List.filter (fun bookmark =>
               negb (String.eqb (Bookmark.id bookmark) (Bookmark.id target))));;
          setDeleteTarget None;;
          notifyTabs
      end
  end.

(** The Delete button of a list item: [onClick={() => setDeleteTarget(bookmark)}] *)
Definition requestDelete (bookmark : Bookmark) : M unit := setDeleteTarget (Some bookmark).

(** The Cancel button of the dialog: [onClick={() => setDeleteTarget(null)}] *)
Definition cancelDelete : M unit := setDeleteTarget None.

(** The Delete button of the dialog: [onClick={() => void handleDelete()}] *)
Definition confirmDelete : M unit := handleDelete.

(** What the effect leaves open until its cleanup runs. *)
Record Subscriptions := {
  (** the topic of the realtime channel *)
  channel : option string;
  (** the name of the broadcast channel *)
  tabChannel : option string
}.

(** The body of [useEffect]. *)
Definition useEffect : M Subscriptions :=
  match userId props with
  | Some u =>
      if (negb (isAuthenticated props) || negb (JS.truthy u))%bool
      then mret {| channel := None; tabChannel := None |}
      else
        loadBookmarks;;
        w ← getWorld;
        mret {| channel := Some ("bookmarks-" +:+ u);
                tabChannel := if BroadcastChannel_in_window w
                              then Some (tabChannel_name u) else None |}
  | None => mret {| channel := None; tabChannel := None |}
  end.

(** [tabChannel.onmessage] *)
Definition tabChannel_onmessage : M unit := loadBookmarks.

(** The callback of [.on("postgres_changes", ...)]. *)
Definition channel_on_postgres_changes : M unit := loadBookmarks.

(** The callback of [.subscribe(...)]. *)
Definition channel_on_status (status : string) : M unit :=
  if String.eqb status "CHANNEL_ERROR"
  then setError (Some "Realtime connection failed. Using tab sync fallback.")
  else mret tt.

(** A message posted on the broadcast channel called [name] reaches the
    listeners of the channels of that name, and no other. *)
Definition BroadcastChannel_deliver (subs : Subscriptions) (name : string) : M unit :=
  match tabChannel subs with
  | Some mine => if String.eqb mine name then tabChannel_onmessage else mret tt
  | None => mret tt
  end.

End Component.

(** The earlier iteration of the component (lines 1-254 of the same file):
    its [handleAdd] only asks for a title and a URL that are not blank. *)
Module Legacy.
Section Component.
Context `{Host}.
Variable props : Props.

Definition handleAdd : M unit :=
  s ← getState;
  setError None;;
  if (negb (JS.truthy (JS.trim (title s))) || negb (JS.truthy (JS.trim (url s))))%bool
  then setError (Some "Title and URL are required.")
  else
    setLoading true;;
    r ← supabase_insert
          (<["title" := JS.trim (title s)]> (<["url" := JS.trim (url s)]> ∅));
    setLoading false;;
    match Response.error r with
    | Some message => setError (Some message)
    | None =>
        setTitle "";;
        setUrl "";;
        loadBookmarks props;;
        notifyTabs props
    end.

(** [handleDelete] of the earlier iteration (lines 138-150): the Delete
    button of a list item calls it with the item's id, with no dialog. *)
Definition handleDelete (id : string) : M unit :=
  setError None;;
  r ← supabase_delete_eq_id id;
  match Response.error r with
  | Some message => setError (Some message)
  | None =>
      setBookmarks_fn
        (List.filter (fun bookmark => negb (String.eqb (Bookmark.id bookmark) id)));;
      notifyTabs props
  end.
End Component.
End Legacy.

(** ** The derived view, with arrays by reference

    [sort] sorts the array it is called on, in place; [[...a]] and [filter]
    make a new array.  Here arrays live in a heap and a variable holds the
    address of one, so that what the derivation writes is visible. *)

Module Render.

Abbreviation heap := (list (list Bookmark)).
Abbreviation ref := nat.

Section Render.
Context `{Host}.

Definition read (r : ref) (h : heap) : list Bookmark := default [] (h !! r).
Definition alloc (a : list Bookmark) (h : heap) : ref * heap := (length h, h ++ [a]).

(** [[...a]] *)
Definition spread (a : ref) (h : heap) : ref * heap := alloc (read a h) h.

(** [a.sort(compareFn)]: sorts [a] itself and returns it. *)
Definition Array_sort (compareFn : Bookmark -> Bookmark -> Z) (a : ref) (h : heap)
  : ref * heap :=
  (a, <[a := JS.sort compareFn (read a h)]> h).

(** [a.filter(callback)] *)
Definition Array_filter (callback : Bookmark -> bool) (a : ref) (h : heap) : ref * heap :=
  alloc (List.filter callback (read a h)) h.

(** Lines 459-469, with [bookmarks] the address held by the state cell. *)
Definition filteredBookmarks (s : State) (bookmarks : ref) (h : heap) : ref * heap :=
  let copy := spread bookmarks h in
  let sortedBookmarks := Array_sort (compareFn (sortBy s)) copy.1 copy.2 in
  Array_filter (matchesSearch s) sortedBookmarks.1 sortedBookmarks.2.

End Render.
End Render.

(** ** Notions of the specification *)

Section Notions.
Context `{Host}.


(** The order the component sorts by, for two items of which the first is
    shown above the second: [localeCompare] on the texts of [created_at]
    (second against first under [latest], first against second under
    [oldest]) or on the titles.  It is an order of the texts: where the texts
    of two creation times do not compare as the instants do, it is not the
    order of the instants. *)
Definition ordered_by (by_ : SortBy) (a b : Bookmark) : Prop :=
  match by_ with
  | latest => localeCompare (Bookmark.created_at b) (Bookmark.created_at a) <= 0
  | oldest => localeCompare (Bookmark.created_at a) (Bookmark.created_at b) <= 0
  | az => localeCompare (Bookmark.title a) (Bookmark.title b) <= 0
  end.


(** The three messages [handleAdd] sets before it has sent anything. *)
Definition ValidationError (e : option string) : Prop :=
  e = Some "Title and URL are required."
  \/ e = Some "Please enter a valid URL."
  \/ e = Some "URL must start with http:// or https://".

(** Every code unit of [s] is white space. *)
Fixpoint all_whitespace (s : string) : bool :=
  match s with
  | EmptyString => true
  | String c s' => (JS.isWhiteSpace c && all_whitespace s')%bool
  end.

(** No row with this [id] belongs to the caller. *)
Definition not_owned (w : World) (id : string) : Prop :=
  forall r, In r (db w) -> Schema.id r = id ->
    auth_uid_eq (auth_uid w) (Schema.user_id r) = false.

(** The rows of the table that belong to the caller. *)
Definition owned_rows (w : World) : list Schema.bookmarks :=
  List.filter (fun r => auth_uid_eq (auth_uid w) (Schema.user_id r)) (db w).

(** The coming request is not made to fail. *)
Definition served (w : World) : Prop :=
  faults w = [] \/ exists rest, faults w = None :: rest.

(** The coming request fails with [message]. *)
Definition refused (w : World) (message : string) : Prop :=
  exists rest, faults w = Some message :: rest.

End Notions.

(** ** A host and a world to run the component in *)

Module Example.

Definition URL_parse (s : string) : option URL :=
  if String.prefix "https://" s then Some {| protocol := "https:"; href := s |}
  else if String.prefix "http://" s then Some {| protocol := "http:"; href := s |}
  else if String.prefix "ftp://" s then Some {| protocol := "ftp:"; href := s |}
  else None.

Definition localeCompare (a b : string) : Z :=
  match String.compare a b with
  | Eq => 0
  | Lt => -1
  | Gt => 1
  end.

Definition timestamptz_out (z : Z) : string :=
  DecimalString.NilZero.string_of_int (Z.to_int z).

#[global] Instance host : Host :=
  Build_Host URL_parse eq_refl localeCompare timestamptz_out.

Definition alice : string := "alice".
Definition bob : string := "bob".

Definition props : Props :=
  {| isAuthenticated := true; userId := Some alice; userEmail := Some "alice@example.com" |}.

Definition anonymous : Props :=
  {| isAuthenticated := false; userId := None; userEmail := None |}.

Definition rows : list Schema.bookmarks :=
  [ Schema.mk "a1" alice "Rocq" "https://rocq-prover.org/" 100;
    Schema.mk "b1" bob "News" "https://news.example.org/" 200;
    Schema.mk "a2" alice "GitHub" "https://github.com/" 300 ].

Definition world0 : World :=
  {| db := rows; auth_uid := Some alice; faults := [];
     gen_random_uuid := fun n => "gen-" +:+ timestamptz_out (Z.of_nat n);
     serial := 0; now := 400; requests := [];
     BroadcastChannel_in_window := true; posted := [] |}.

(** The same world when the coming request fails. *)
Definition world_down : World := with_faults [Some "Failed to fetch"] world0.

Definition github : Bookmark := Bookmark.mk "a2" "GitHub" "https://github.com/" "300".
Definition rocq : Bookmark := Bookmark.mk "a1" "Rocq" "https://rocq-prover.org/" "100".
Definition news : Bookmark := Bookmark.mk "b1" "News" "https://news.example.org/" "200".

Definition state0 : State :=
  {| bookmarks := [github; rocq]; title := ""; url := ""; search := "";
     sortBy := latest; loading := false; error := None; signingOut := false;
     deleteTarget := None; deleteLoading := false; authMode := login;
     authLoading := false |}.

Definition tab0 : Tab := {| state := state0; world := world0 |}.

(** The form holds a title and an https address, with blanks around them. *)
Definition tab_docs : Tab :=
  {| state := with_url " https://example.com/docs" (with_title " Docs " state0);
     world := world0 |}.

(** The form holds an address without a scheme. *)
Definition tab_no_scheme : Tab :=
  {| state := with_url "example.com/docs" (with_title "Docs" state0);
     world := world0 |}.

(** The dialog asks about a bookmark whose row belongs to bob. *)
Definition tab_confirm_news : Tab :=
  {| state := with_deleteTarget (Some news) state0; world := world0 |}.

(** The dialog asks about one of alice's bookmarks, and the store is down. *)
Definition tab_confirm_down : Tab :=
  {| state := with_deleteTarget (Some github) state0; world := world_down |}.

(** A second tab of alice, not reloaded since the first one deleted the
    bookmark it now asks about. *)
Definition tab_stale : Tab :=
  {| state := with_deleteTarget (Some github) state0;
     world := world_after (handleDelete props)
                {| state := with_deleteTarget (Some github) state0; world := world0 |} |}.

(** The user typed a space before the word. *)
Definition state_git : State := with_search " git" state0.

(** The user typed only blanks. *)
Definition state_blank : State := with_search "   " (with_sortBy az state0).

End Example.

(** ** The rest of the component *)

Definition with_signingOut (v : bool) (s : State) : State :=
  {| bookmarks := bookmarks s; title := title s; url := url s; search := search s;
     sortBy := sortBy s; loading := loading s; error := error s;
     signingOut := v; deleteTarget := deleteTarget s;
     deleteLoading := deleteLoading s; authMode := authMode s;
     authLoading := authLoading s |}.

Definition with_authMode (v : AuthMode) (s : State) : State :=
  {| bookmarks := bookmarks s; title := title s; url := url s; search := search s;
     sortBy := sortBy s; loading := loading s; error := error s;
     signingOut := signingOut s; deleteTarget := deleteTarget s;
     deleteLoading := deleteLoading s; authMode := v;
     authLoading := authLoading s |}.

Definition with_authLoading (v : bool) (s : State) : State :=
  {| bookmarks := bookmarks s; title := title s; url := url s; search := search s;
     sortBy := sortBy s; loading := loading s; error := error s;
     signingOut := signingOut s; deleteTarget := deleteTarget s;
     deleteLoading := deleteLoading s; authMode := authMode s;
     authLoading := v |}.

Definition setSigningOut (v : bool) : M unit := modifyState (with_signingOut v).
Definition setAuthMode (v : AuthMode) : M unit := modifyState (with_authMode v).
Definition setAuthLoading (v : bool) : M unit := modifyState (with_authLoading v).

Definition with_auth_uid (v : option string) (w : World) : World :=
  {| db := db w; auth_uid := v; faults := faults w;
     gen_random_uuid := gen_random_uuid w; serial := serial w; now := now w;
     requests := requests w;
     BroadcastChannel_in_window := BroadcastChannel_in_window w;
     posted := posted w |}.

(** [const profileInitial = (userEmail?.trim()?.charAt(0) ?? "U").toUpperCase()]:
    [??] replaces only the missing email, not an empty string. *)
Definition profileInitial (props : Props) : option string :=
  JS.toUpperCase
    match userEmail props with
    | None => "U"
    | Some email => JS.charAt (JS.trim email) 0
    end.

(** [{filteredBookmarks.length === 0 ? <p>No bookmarks yet. ...</p> : null}]:
    whether the list shows its empty-state message. *)
Definition emptyStateShown `{Host} (s : State) : bool :=
  Nat.eqb (length (filteredBookmarks s)) 0.

(** *** Signing in and out *)

(** A call of [supabase.auth]. *)
Inductive AuthCall :=
| SignInWithOAuth (provider redirectTo : string) (queryParams : gmap string string)
| SignOut.

(** The tab together with what signing in and out touches. *)
Record Browser := {
  tab : Tab;
  (** [window.location.origin] *)
  origin : string;
  (** for each coming call of [supabase.auth], whether it fails and how *)
  auth_faults : list (option string);
  (** the calls of [supabase.auth] so far, oldest first *)
  auth_calls : list AuthCall;
  (** how often [router.refresh()] ran *)
  refreshes : nat
}.

Definition MB (A : Type) : Type := Browser -> A * Browser.

#[global] Instance MB_ret : MRet MB := fun A a b => (a, b).
#[global] Instance MB_bind : MBind MB := fun A B f m b => let r := m b in f r.1 r.2.

(** A handler of the tab, run in the browser. *)
Definition inTab {A} (m : M A) : MB A :=
  fun b =>
    let r := m (tab b) in
    (r.1, {| tab := r.2; origin := origin b; auth_faults := auth_faults b;
             auth_calls := auth_calls b; refreshes := refreshes b |}).

Definition getOrigin : MB string := fun b => (origin b, b).

(** [await supabase.auth. ...]: the call is logged and answers with its
    error, if the world gives it one; when it goes through, [onSuccess]
    is what it does to the world of the tab. *)
Definition supabase_auth (c : AuthCall) (onSuccess : World -> World) : MB (option string) :=
  fun b =>
    let failure := match auth_faults b with Some message :: _ => Some message | _ => None end in
    let w := match failure with
             | Some _ => world (tab b)
             | None => onSuccess (world (tab b))
             end in
    (failure,
     {| tab := {| state := state (tab b); world := w |}; origin := origin b;
        auth_faults := tail (auth_faults b);
        auth_calls := auth_calls b ++ [c]; refreshes := refreshes b |}).

(** [router.refresh()] *)
Definition router_refresh : MB unit :=
  fun b =>
    (tt, {| tab := tab b; origin := origin b; auth_faults := auth_faults b;
            auth_calls := auth_calls b; refreshes := S (refreshes b) |}).

(** [signInWithGoogle] *)
Definition signInWithGoogle : MB unit :=
  s ← inTab getState;
  inTab (setError None);;
  inTab (setAuthLoading true);;
  o ← getOrigin;
  let callbackUrl := o +:+ "/auth/callback" in
  signInError ← supabase_auth
    (SignInWithOAuth "google" callbackUrl
       match authMode s with
       | signup => <["prompt" := "consent"]> (<["access_type" := "offline"]> ∅)
       | login => <["prompt" := "select_account"]> ∅
       end)
    (fun w => w);
  inTab (setAuthLoading false);;
  match signInError with
  | Some message => inTab (setError (Some message))
  | None => mret tt
  end.

(** [handleSignOut]; a sign-out that goes through leaves the client without
    a session. *)
Definition handleSignOut : MB unit :=
  inTab (setSigningOut true);;
  inTab (setError None);;
  signOutError ← supabase_auth SignOut (with_auth_uid None);
  inTab (setSigningOut false);;
  match signOutError with
  | Some message => inTab (setError (Some message))
  | None => router_refresh
  end.

(** ** The page *)

Module Auth.
(** [session.user], as far as the page reads it. *)
Record User := { id : string; email : option string }.
Record Session := { user : User }.
End Auth.

(** [HomePage] (src/app/page.tsx): the props it renders [BookmarkManager]
    with, for the session [getSession()] returned. *)
Definition HomePage (session : option Auth.Session) : Props :=
  let isAuthenticated := match session with Some _ => true | None => false end in
  if negb isAuthenticated
  then {| isAuthenticated := false; userId := None; userEmail := None |}
  else {| isAuthenticated := true;
          userId := match session with
                    | Some s => Some (Auth.id (Auth.user s))
                    | None => None
                    end;
          userEmail := match session with
                       | Some s => Auth.email (Auth.user s)
                       | None => None
                       end |}.

(** ** Further notions *)

(** No coming request is made to fail. *)
Definition calm (w : World) : Prop := Forall (fun f => f = None) (faults w).

(** The row belongs to the caller. *)
Definition owned (w : World) (r : Schema.bookmarks) : bool :=
  auth_uid_eq (auth_uid w) (Schema.user_id r).

(** The rows of the table that belong to someone else. *)
Definition others_rows (w : World) : list Schema.bookmarks :=
  List.filter (fun r => negb (owned w r)) (db w).

(** The first and the last code unit of a string. *)
Definition head_unit (s : string) : option ascii :=
  match s with EmptyString => None | String c _ => Some c end.

Fixpoint last_unit (s : string) : option ascii :=
  match s with
  | EmptyString => None
  | String c EmptyString => Some c
  | String _ s' => last_unit s'
  end.

(** The fields [handleAdd] sends for the form in [s] and the parsed URL. *)
Definition insert_values (s : State) (parsedUrl : URL) : gmap string string :=
  <["title" := JS.trim (title s)]> (<["url" := URL_toString parsedUrl]> ∅).

(** The form in [s] passes the checks of [handleAdd], with [parsedUrl] the
    URL parsed. *)
Definition valid_input `{Host} (s : State) (parsedUrl : URL) : Prop :=
  JS.trim (title s) <> EmptyString
  /\ URL_parse (JS.trim (url s)) = Some parsedUrl
  /\ (protocol parsedUrl = "http:" \/ protocol parsedUrl = "https:").

(** What a successful select hands to the client. *)
Definition selected `{Host} (w : World) : list Bookmark :=
  default [] (Response.data (store_select w).1).

(** Further states and worlds to run the component in. *)
Module Scenario.

Definition session : Auth.Session :=
  {| Auth.user := {| Auth.id := Example.alice; Auth.email := Some " alice@example.com" |} |}.

(** The reload fails, the one after goes through. *)
Definition tab_flaky : Tab :=
  {| state := Example.state0;
     world := with_faults [Some "Failed to fetch"; None] Example.world0 |}.

(** The dialog asks about one of alice's bookmarks. *)
Definition tab_confirm_github : Tab :=
  {| state := with_deleteTarget (Some Example.github) Example.state0;
     world := Example.world0 |}.

(** The form is filled in, and nobody is signed in any more. *)
Definition tab_signed_out : Tab :=
  {| state := state Example.tab_docs; world := with_auth_uid None Example.world0 |}.

(** The form is filled in, and the store is down. *)
Definition tab_docs_down : Tab :=
  {| state := state Example.tab_docs; world := Example.world_down |}.

(** Two bookmarks saved at the same instant. *)
Definition state_tie : State :=
  with_bookmarks
    [Bookmark.mk "t1" "One" "https://one.example.org/" "500";
     Bookmark.mk "t2" "Two" "https://two.example.org/" "500"] Example.state0.

(** The user pasted an address with a no-break space (U+00A0) before it. *)
Definition nbsp_url : string := String "160"%char "https://example.com/docs".

Definition tab_nbsp : Tab :=
  {| state := with_url nbsp_url (with_title "Docs" Example.state0);
     world := Example.world0 |}.





Definition browser0 : Browser :=
  {| tab := Example.tab0; origin := "https://bookmarks.example.org";
     auth_faults := []; auth_calls := []; refreshes := 0 |}.

Definition browser_down : Browser :=
  {| tab := Example.tab0; origin := "https://bookmarks.example.org";
     auth_faults := [Some "Network request failed"]; auth_calls := []; refreshes := 0 |}.

End Scenario.

(** * Properties *)

(** ** Strings *)

Lemma append_cons (c : ascii) (a b : string) : String c a +:+ b = String c (a +:+ b).
Proof. reflexivity. Qed.

Lemma append_nil (b : string) : EmptyString +:+ b = b.
Proof. reflexivity. Qed.

Ltac simpl_append := rewrite ?append_cons, ?append_nil in *.








Lemma trimStart_all_whitespace (q : string) :
  all_whitespace q = true -> JS.trimStart q = EmptyString.
Proof.
  induction q as [|c q IH]; simpl; [done|].
  intros [Hc Hq]%andb_true_iff. rewrite Hc. auto.
Qed.

Lemma trim_all_whitespace (q : string) :
  all_whitespace q = true -> JS.trim q = EmptyString.
Proof. intros Hq. unfold JS.trim. by rewrite trimStart_all_whitespace. Qed.

(** ** Sorting *)

Section SortFacts.
Context {A : Type} (cmp : A -> A -> Z).

Lemma sort_insert_Permutation (x : A) (l : list A) :
  Permutation (stable_insert cmp x l) (x :: l).
Proof.
  induction l as [|y l IH]; simpl; [done|].
  destruct (cmp x y <=? 0); [done|].
  rewrite IH. apply perm_swap.
Qed.

Lemma sort_Permutation (l : list A) : Permutation (stable_sort cmp l) l.
Proof.
  induction l as [|x l IH]; simpl; [done|].
  by rewrite sort_insert_Permutation, IH.
Qed.

Hypothesis cmp_flip : forall a b, 0 < cmp a b -> cmp b a <= 0.
Hypothesis cmp_trans : forall a b c, cmp a b <= 0 -> cmp b c <= 0 -> cmp a c <= 0.

Lemma sort_insert_StronglySorted (x : A) (l : list A) :
  StronglySorted (fun a b => cmp a b <= 0) l ->
  StronglySorted (fun a b => cmp a b <= 0) (stable_insert cmp x l).
Proof.
  induction 1 as [|y l Hl IH Hy]; simpl.
  - repeat constructor.
  - destruct (Z.leb_spec (cmp x y) 0) as [Hxy|Hxy].
    + constructor; [by constructor|].
      constructor; [done|].
      eapply Forall_impl; [exact Hy|]. intros z Hz. simpl in Hz. eauto.
    + constructor; [done|].
      rewrite sort_insert_Permutation. constructor; [|done]. auto.
Qed.

Lemma sort_StronglySorted (l : list A) :
  StronglySorted (fun a b => cmp a b <= 0) (stable_sort cmp l).
Proof.
  induction l as [|x l IH]; simpl; [constructor|].
  by apply sort_insert_StronglySorted.
Qed.




End SortFacts.

Lemma filter_StronglySorted {A} (R : A -> A -> Prop) (f : A -> bool) (l : list A) :
  StronglySorted R l -> StronglySorted R (List.filter f l).
Proof.
  induction 1 as [|x l Hl IH Hx]; simpl; [constructor|].
  destruct (f x); [|done]. constructor; [done|].
  rewrite Forall_forall in *. intros y Hy. apply Hx.
  apply list_elem_of_In in Hy. apply filter_In in Hy as [Hy _].
  by apply list_elem_of_In.
Qed.

Lemma filter_Permutation_bool {A} (f : A -> bool) (l l' : list A) :
  Permutation l l' -> Permutation (List.filter f l) (List.filter f l').
Proof.
  induction 1 as [|x l l' _ IH|x y l|l l' l'' _ IH1 _ IH2]; simpl.
  - done.
  - destruct (f x); [by constructor | done].
  - destruct (f x), (f y); try done. apply perm_swap.
  - by rewrite IH1.
Qed.

Lemma filter_all {A} (f : A -> bool) (l : list A) :
  (forall x, f x = true) -> List.filter f l = l.
Proof.
  intros Hf. induction l as [|x l IH]; simpl; [done|]. by rewrite Hf, IH.
Qed.

Lemma ordered_by_compareFn `{Host} (by_ : SortBy) (a b : Bookmark) :
  ordered_by by_ a b <-> compareFn by_ a b <= 0.
Proof. by destruct by_. Qed.

Lemma StronglySorted_impl {A} (R R' : A -> A -> Prop) (l : list A) :
  (forall a b, R a b -> R' a b) -> StronglySorted R l -> StronglySorted R' l.
Proof.
  intros HR. induction 1 as [|x l Hl IH Hx]; constructor; [done|].
  eapply Forall_impl; [exact Hx|]. auto.
Qed.


Lemma sortedBookmarks_StronglySorted `{C : ConsistentCollation} (s : State) :
  StronglySorted (ordered_by (sortBy s)) (sortedBookmarks s).
Proof.
  unfold sortedBookmarks.
  apply (StronglySorted_impl (fun a b => compareFn (sortBy s) a b <= 0)).
  - intros a b. by rewrite ordered_by_compareFn.
  - apply sort_StronglySorted.
    + intros a b. destruct (sortBy s); simpl; apply localeCompare_flip.
    + intros a b c. destruct (sortBy s); simpl; eauto using localeCompare_trans.
Qed.

(** The example host compares code unit by code unit, which is consistent. *)
Lemma example_collation : ConsistentCollation Example.host.
Proof.
  assert (Hle : forall a b, Example.localeCompare a b <= 0 <-> String.leb a b = true).
  { intros a b. unfold Example.localeCompare, String.leb.
    destruct (String.compare a b); split; (done || lia). }
  split; simpl.
  - intros a b Hab. apply Hle.
    destruct (String.leb_total a b) as [Hl|Hl]; [|done].
    apply Hle in Hl. lia.
  - intros a b c. rewrite !Hle. intros Hab Hbc.
    apply Is_true_true. apply Is_true_true in Hab, Hbc.
    exact (transitivity (R := String.le) Hab Hbc).
Qed.

(** ** The derived view *)


Lemma filteredBookmarks_Permutation `{Host} (s : State) :
  Permutation (filteredBookmarks s) (List.filter (matchesSearch s) (bookmarks s)).
Proof. apply filter_Permutation_bool, sort_Permutation. Qed.






(** C10. A search query of white space only is treated as the empty query:
    the query is trimmed and lower-cased before matching, so for every items
    list such a query matches all items. *)
Theorem whitespace_query_matches_all `{Host} (s : State) :
  all_whitespace (search s) = true ->
  JS.toLowerCase (JS.trim (search s)) = EmptyString
  /\ filteredBookmarks s = filteredBookmarks (with_search EmptyString s)
  /\ filteredBookmarks s = sortedBookmarks s
  /\ Permutation (filteredBookmarks s) (bookmarks s)
  /\ (forall b, In b (bookmarks s) -> In b (filteredBookmarks s)).
Proof.
  intros Hws. pose proof (trim_all_whitespace _ Hws) as Htrim.
  assert (Hall : forall b, matchesSearch s b = true).
  { intros b. unfold matchesSearch. by rewrite Htrim. }
  assert (Hview : filteredBookmarks s = sortedBookmarks s).
  { unfold filteredBookmarks. by apply filter_all. }
  split; [by rewrite Htrim|]. split; [|split; [done|split]].
  - rewrite Hview. unfold filteredBookmarks.
    rewrite filter_all; [done|]. intros b. reflexivity.
  - rewrite Hview. apply sort_Permutation.
  - intros b Hb. rewrite Hview.
    eapply Permutation_in; [symmetry; apply sort_Permutation | exact Hb].
Qed.

Lemma whitespace_query_matches_all_witness :
  all_whitespace (search Example.state_blank) = true
  /\ filteredBookmarks Example.state_blank
     = filteredBookmarks (with_search EmptyString Example.state_blank)
  /\ Permutation (filteredBookmarks Example.state_blank) (bookmarks Example.state_blank).
Proof.
  split; [reflexivity|].
  pose proof (whitespace_query_matches_all Example.state_blank eq_refl)
    as (_ & Heq & _ & Hperm & _).
  split; [exact Heq | exact Hperm].
Defined.

(** ** Requests *)

Lemma served_or_refused (w : World) : served w \/ exists message, refused w message.
Proof.
  unfold served, refused. destruct (faults w) as [|[message|] rest]; eauto.
Qed.

Lemma served_not_refused (w : World) (message : string) :
  served w -> refused w message -> False.
Proof. intros [Hs|[rest Hs]] [rest' Hr]; congruence. Qed.

Lemma supabase_request_refused {A} (r : Request)
    (serve : World -> Response A * World) (t : Tab) (message : string) :
  refused (world t) message ->
  supabase_request r serve t
  = (Response.mk None (Some message), {| state := state t; world := issued r (world t) |}).
Proof. intros [rest Hr]. unfold supabase_request. by rewrite Hr. Qed.

Lemma supabase_request_served {A} (r : Request)
    (serve : World -> Response A * World) (t : Tab) :
  served (world t) ->
  supabase_request r serve t
  = ((serve (issued r (world t))).1,
     {| state := state t; world := (serve (issued r (world t))).2 |}).
Proof. intros [Hs|[rest Hs]]; unfold supabase_request; by rewrite Hs. Qed.

Ltac run :=
  unfold state_after, world_after, mbind, M_bind, mret, M_ret, getState, getWorld,
    setBookmarks, setBookmarks_fn, setTitle, setUrl, setLoading, setError,
    setDeleteTarget, setDeleteLoading, modifyState, modifyWorld;
  simpl.

(** ** Reload *)

Lemma created_at_desc_StronglySorted (l : list Schema.bookmarks) :
  StronglySorted (fun a b => Schema.created_at b <= Schema.created_at a)
    (stable_sort created_at_desc l).
Proof.
  apply (StronglySorted_impl (fun a b => created_at_desc a b <= 0)).
  - unfold created_at_desc. intros a b. lia.
  - apply sort_StronglySorted; unfold created_at_desc; intros; lia.
Qed.

Lemma loadBookmarks_served `{Host} (props : Props) (t : Tab) :
  JS.truthy_opt (userId props) = true ->
  served (world t) ->
  loadBookmarks props t
  = (tt, {| state := with_bookmarks
                       (List.map to_Bookmark
                          (stable_sort created_at_desc (owned_rows (world t))))
                       (state t);
            world := issued (Select "id,title,url,created_at" "created_at" false)
                       (world t) |}).
Proof.
  intros Hu Hs. unfold loadBookmarks, supabase_select. rewrite Hu. run.
  by rewrite supabase_request_served.
Qed.

Lemma loadBookmarks_refused `{Host} (props : Props) (t : Tab) (message : string) :
  JS.truthy_opt (userId props) = true ->
  refused (world t) message ->
  loadBookmarks props t
  = (tt, {| state := with_error (Some message) (state t);
            world := issued (Select "id,title,url,created_at" "created_at" false)
                       (world t) |}).
Proof.
  intros Hu Hr. unfold loadBookmarks, supabase_select. rewrite Hu. run.
  by rewrite (supabase_request_refused _ _ _ message).
Qed.

Lemma loadBookmarks_no_identity `{Host} (props : Props) (t : Tab) :
  JS.truthy_opt (userId props) = false -> loadBookmarks props t = (tt, t).
Proof. intros Hu. unfold loadBookmarks. by rewrite Hu. Qed.

(** C4. When the fetch of a reload fails, the reload surfaces the message
    of the failure and leaves the items as they were; with no identity the
    reload is a no-op: no fetch is issued and nothing changes. *)
Theorem loadBookmarks_failure_keeps_items `{Host} (props : Props) (t : Tab) :
  (forall message,
     JS.truthy_opt (userId props) = true ->
     refused (world t) message ->
     error (state_after (loadBookmarks props) t) = Some message
     /\ bookmarks (state_after (loadBookmarks props) t) = bookmarks (state t)
     /\ state_after (loadBookmarks props) t = with_error (Some message) (state t)
     /\ db (world_after (loadBookmarks props) t) = db (world t))
  /\ (JS.truthy_opt (userId props) = false ->
      loadBookmarks props t = (tt, t)
      /\ requests (world_after (loadBookmarks props) t) = requests (world t)).
Proof.
  split.
  - intros message Hu Hr. unfold state_after, world_after.
    by rewrite (loadBookmarks_refused _ _ message).
  - intros Hu. unfold world_after. by rewrite loadBookmarks_no_identity.
Qed.

Lemma loadBookmarks_failure_keeps_items_witness :
  JS.truthy_opt (userId Example.props) = true
  /\ refused Example.world_down "Failed to fetch"
  /\ error (state_after (loadBookmarks Example.props)
              {| state := Example.state0; world := Example.world_down |})
     = Some "Failed to fetch"
  /\ bookmarks (state_after (loadBookmarks Example.props)
                  {| state := Example.state0; world := Example.world_down |})
     = bookmarks Example.state0
  /\ JS.truthy_opt (userId Example.anonymous) = false
  /\ loadBookmarks Example.anonymous Example.tab0 = (tt, Example.tab0).
Proof.
  assert (Hr : refused Example.world_down "Failed to fetch") by (by exists []).
  destruct (loadBookmarks_failure_keeps_items Example.props
              {| state := Example.state0; world := Example.world_down |})
    as [Hfail _].
  destruct (Hfail "Failed to fetch" eq_refl Hr) as (He & Hb & _).
  destruct (loadBookmarks_failure_keeps_items Example.anonymous Example.tab0)
    as [_ Hnone].
  destruct (Hnone eq_refl) as [Hnoop _].
  repeat split; assumption.
Defined.

(** C5. A reload that succeeds leaves as items the whole list the store
    returns: the rows of the caller, each once, the later created first,
    whatever the items were before. *)
Theorem loadBookmarks_replaces_items `{Host} (props : Props) (t : Tab) :
  JS.truthy_opt (userId props) = true ->
  served (world t) ->
  exists rows,
    bookmarks (state_after (loadBookmarks props) t) = List.map to_Bookmark rows
    /\ Permutation rows (owned_rows (world t))
    /\ StronglySorted (fun a b => Schema.created_at b <= Schema.created_at a) rows
    /\ error (state_after (loadBookmarks props) t) = error (state t)
    /\ forall previous,
         bookmarks (state_after (loadBookmarks props)
                      {| state := with_bookmarks previous (state t); world := world t |})
         = List.map to_Bookmark rows.
Proof.
  intros Hu Hs. exists (stable_sort created_at_desc (owned_rows (world t))).
  unfold state_after. rewrite loadBookmarks_served by done. simpl.
  split; [done|]. split; [apply sort_Permutation|].
  split; [apply created_at_desc_StronglySorted|]. split; [done|].
  intros previous. by rewrite loadBookmarks_served.
Qed.

Lemma loadBookmarks_replaces_items_witness :
  JS.truthy_opt (userId Example.props) = true
  /\ served Example.world0
  /\ exists rows,
       bookmarks (state_after (loadBookmarks Example.props) Example.tab0)
       = List.map to_Bookmark rows
       /\ Permutation rows (owned_rows Example.world0)
       /\ StronglySorted (fun a b => Schema.created_at b <= Schema.created_at a) rows.
Proof.
  assert (Hs : served Example.world0) by (by left).
  destruct (loadBookmarks_replaces_items Example.props Example.tab0 eq_refl Hs)
    as (rows & Hb & Hp & Hsorted & _).
  split; [reflexivity|]. split; [exact Hs|]. exists rows. auto.
Defined.

(** ** Create *)

Lemma truthy_false (s : string) : JS.truthy s = false <-> s = EmptyString.
Proof. destruct s; simpl; split; congruence. Qed.

Lemma eqb_false (a b : string) : String.eqb a b = false <-> a <> b.
Proof. apply String.eqb_neq. Qed.

(** The store sets the owner of a new row from the session, whatever the
    command carries. *)
Lemma store_insert_owner (values : gmap string string) (w : World) :
  Response.error (store_insert values w).1 = None ->
  exists r, db (store_insert values w).2 = db w ++ [r]
            /\ Some (Schema.user_id r) = auth_uid w
            /\ Some (Schema.title r) = values !! "title"
            /\ Some (Schema.url r) = values !! "url".
Proof.
  unfold store_insert, set_bookmark_user_id, policy_insert_own, auth_uid_eq. simpl.
  destruct (auth_uid w) as [u|] eqn:Hu; simpl; [|discriminate].
  rewrite String.eqb_refl.
  destruct (values !! "title") as [ti|]; simpl; [|discriminate].
  destruct (values !! "url") as [ur|]; simpl; [|discriminate].
  intros _. eexists. split; [reflexivity|]. auto.
Qed.

Lemma store_insert_requests (values : gmap string string) (w : World) :
  requests (store_insert values w).2 = requests w.
Proof.
  unfold store_insert, set_bookmark_user_id, policy_insert_own, auth_uid_eq. simpl.
  destruct (auth_uid w); [|done]. rewrite String.eqb_refl.
  by destruct (values !! "title"), (values !! "url").
Qed.

Lemma loadBookmarks_requests `{Host} (props : Props) (t : Tab) :
  requests (world_after (loadBookmarks props) t) = requests (world t)
  \/ requests (world_after (loadBookmarks props) t)
     = requests (world t) ++ [Select "id,title,url,created_at" "created_at" false].
Proof.
  unfold world_after.
  destruct (JS.truthy_opt (userId props)) eqn:Hu.
  - right. destruct (served_or_refused (world t)) as [Hs|[message Hr]].
    + by rewrite loadBookmarks_served.
    + by rewrite (loadBookmarks_refused _ _ message).
  - left. by rewrite loadBookmarks_no_identity.
Qed.

Lemma notifyTabs_requests (props : Props) (t : Tab) :
  requests (world_after (notifyTabs props) t) = requests (world t).
Proof.
  unfold notifyTabs. run. destruct (userId props) as [u|]; [|done].
  by destruct (negb (JS.truthy u) || negb (BroadcastChannel_in_window (world t)))%bool.
Qed.

(** An address without a scheme is turned down before anything is sent. *)
Lemma handleAdd_no_scheme_example :
  error (state_after (handleAdd Example.props) Example.tab_no_scheme)
  = Some "Please enter a valid URL."
  /\ world_after (handleAdd Example.props) Example.tab_no_scheme = Example.world0.
Proof. split; reflexivity. Qed.

(** The earlier iteration of [handleAdd] (lines 109-136) does not parse the
    url: it sends what the user typed, trimmed, as long as it is not blank. *)
Lemma Legacy_handleAdd_sends_raw_url :
  requests (world_after (Legacy.handleAdd Example.props) Example.tab_no_scheme)
  = [Insert (<["title" := "Docs"]> (<["url" := "example.com/docs"]> ∅));
     Select "id,title,url,created_at" "created_at" false].
Proof. reflexivity. Qed.

(** ** Delete *)

Lemma filter_all_In {A} (f : A -> bool) (l : list A) :
  (forall x, In x l -> f x = true) -> List.filter f l = l.
Proof.
  induction l as [|x l IH]; simpl; [done|]. intros Hf.
  rewrite Hf by auto. rewrite IH; auto.
Qed.

(** A delete of an id none of whose rows belongs to the caller removes
    nothing, and the store does not call that an error. *)
Lemma store_delete_not_owned (value : string) (w : World) :
  not_owned w value ->
  Response.error (store_delete value w).1 = None
  /\ db (store_delete value w).2 = db w.
Proof.
  intros Hno. unfold store_delete. simpl. split; [done|].
  apply filter_all_In. intros r Hr. unfold policy_delete_own.
  destruct (String.eqb (Schema.id r) value) eqn:Hid.
  - apply String.eqb_eq in Hid. by rewrite (Hno r Hr Hid).
  - by rewrite andb_false_r.
Qed.

Lemma handleDelete_refused (props : Props) (t : Tab)
    (target : Bookmark) (message : string) :
  deleteTarget (state t) = Some target ->
  refused (world t) message ->
  handleDelete props t
  = (tt, {| state := with_error (Some message)
                       (with_deleteLoading false
                          (with_deleteLoading true (with_error None (state t))));
            world := issued (Delete_eq "id" (Bookmark.id target)) (world t) |}).
Proof.
  intros Ht Hr. unfold handleDelete, supabase_delete_eq_id. run. rewrite Ht. run.
  by rewrite (supabase_request_refused _ _ _ message).
Qed.

Lemma handleDelete_served (props : Props) (t : Tab) (target : Bookmark) :
  deleteTarget (state t) = Some target ->
  served (world t) ->
  handleDelete props t
  = notifyTabs props
      {| state := with_deleteTarget None
                    (with_bookmarks
                       (List.filter
                          (fun bookmark =>
                             negb (String.eqb (Bookmark.id bookmark) (Bookmark.id target)))
                          (bookmarks (state t)))
                       (with_deleteLoading false
                          (with_deleteLoading true (with_error None (state t)))));
         world := (store_delete (Bookmark.id target)
                     (issued (Delete_eq "id" (Bookmark.id target)) (world t))).2 |}.
Proof.
  intros Ht Hs. unfold handleDelete, supabase_delete_eq_id. run. rewrite Ht. run.
  by rewrite supabase_request_served.
Qed.

Lemma notifyTabs_posted (props : Props) (t : Tab) :
  posted (world (notifyTabs props t).2)
  = match userId props with
    | Some u =>
        if (JS.truthy u && BroadcastChannel_in_window (world t))%bool
        then posted (world t) ++ [("bookmarks-sync-" +:+ u, "bookmarks-changed")]
        else posted (world t)
    | None => posted (world t)
    end.
Proof.
  unfold notifyTabs. run. destruct (userId props) as [u|]; [|done].
  by destruct (JS.truthy u), (BroadcastChannel_in_window (world t)).
Qed.

Lemma notifyTabs_state (props : Props) (t : Tab) :
  state (notifyTabs props t).2 = state t.
Proof.
  unfold notifyTabs. run. destruct (userId props) as [u|]; [|done].
  by destruct (negb (JS.truthy u) || negb (BroadcastChannel_in_window (world t)))%bool.
Qed.

Lemma notifyTabs_db (props : Props) (t : Tab) :
  db (world (notifyTabs props t).2) = db (world t).
Proof.
  unfold notifyTabs. run. destruct (userId props) as [u|]; [|done].
  by destruct (negb (JS.truthy u) || negb (BroadcastChannel_in_window (world t)))%bool.
Qed.

(** C2 (as amended). For every id none of whose rows belongs to the caller,
    the delete policy hides the rows from the command: the store deletes
    nothing and reports no error, so [handleDelete] surfaces no error, drops
    the local items of that id, clears the pending target and goes on as
    after any delete.  When the store does answer a delete with an error,
    the message is surfaced and the local items are left as they were. *)
Theorem handleDelete_not_owned_is_silent (props : Props) (t : Tab)
    (target : Bookmark) :
  deleteTarget (state t) = Some target ->
  not_owned (world t) (Bookmark.id target) ->
  (served (world t) ->
     error (state_after (handleDelete props) t) = None
     /\ db (world_after (handleDelete props) t) = db (world t)
     /\ deleteTarget (state_after (handleDelete props) t) = None
     /\ bookmarks (state_after (handleDelete props) t)
        = List.filter
            (fun bookmark => negb (String.eqb (Bookmark.id bookmark) (Bookmark.id target)))
            (bookmarks (state t))
     /\ posted (world_after (handleDelete props) t)
        = match userId props with
          | Some u =>
              if (JS.truthy u && BroadcastChannel_in_window (world t))%bool
              then posted (world t) ++ [("bookmarks-sync-" +:+ u, "bookmarks-changed")]
              else posted (world t)
          | None => posted (world t)
          end)
  /\ (forall message,
        refused (world t) message ->
        error (state_after (handleDelete props) t) = Some message
        /\ bookmarks (state_after (handleDelete props) t) = bookmarks (state t)
        /\ db (world_after (handleDelete props) t) = db (world t)).
Proof.
  intros Ht Hno. split.
  - intros Hs. unfold state_after, world_after.
    rewrite (handleDelete_served _ _ target) by done.
    rewrite notifyTabs_state, notifyTabs_db, notifyTabs_posted. simpl.
    repeat split; try done.
    by apply (store_delete_not_owned (Bookmark.id target)
                (issued (Delete_eq "id" (Bookmark.id target)) (world t))).
  - intros message Hr. unfold state_after, world_after.
    by rewrite (handleDelete_refused _ _ target message).
Qed.

Lemma handleDelete_not_owned_is_silent_witness :
  deleteTarget (state Example.tab_confirm_news) = Some Example.news
  /\ not_owned (world Example.tab_confirm_news) (Bookmark.id Example.news)
  /\ served (world Example.tab_confirm_news)
  /\ error (state_after (handleDelete Example.props) Example.tab_confirm_news) = None
  /\ db (world_after (handleDelete Example.props) Example.tab_confirm_news)
     = db (world Example.tab_confirm_news).
Proof.
  assert (Hno : not_owned (world Example.tab_confirm_news) (Bookmark.id Example.news)).
  { intros r Hr Hid. simpl in Hr.
    destruct Hr as [<-|[<-|[<-|[]]]]; (reflexivity || discriminate). }
  assert (Hs : served (world Example.tab_confirm_news)) by (by left).
  destruct (handleDelete_not_owned_is_silent Example.props Example.tab_confirm_news
              Example.news eq_refl Hno) as [Hsilent _].
  destruct (Hsilent Hs) as (He & Hdb & _).
  repeat split; assumption.
Defined.

(** C2 as stated fails: alice confirms the deletion of a bookmark whose row
    belongs to bob.  No row of hers has that id, yet [handleDelete] ends with
    no error, bob's row still in the table, the dialog closed and the change
    broadcast. *)
Lemma handleDelete_not_owned_counterexample :
  auth_uid (world Example.tab_confirm_news) = Some Example.alice
  /\ (forall r, In r (db (world Example.tab_confirm_news)) ->
        Schema.id r = Bookmark.id Example.news -> Schema.user_id r = Example.bob)
  /\ error (state_after (handleDelete Example.props) Example.tab_confirm_news) = None
  /\ db (world_after (handleDelete Example.props) Example.tab_confirm_news)
     = db (world Example.tab_confirm_news)
  /\ deleteTarget (state_after (handleDelete Example.props) Example.tab_confirm_news)
     = None
  /\ posted (world_after (handleDelete Example.props) Example.tab_confirm_news)
     = [("bookmarks-sync-alice", "bookmarks-changed")].
Proof.
  split; [reflexivity|]. split.
  - intros r Hr Hid. simpl in Hr.
    destruct Hr as [<-|[<-|[<-|[]]]]; (reflexivity || discriminate).
  - repeat split; reflexivity.
Qed.

(** The same silence in a state two tabs reach: the first tab has deleted
    the bookmark, the second, not yet reloaded, confirms its own dialog for
    it.  The second delete is no error either. *)
Lemma handleDelete_second_delete_example :
  not_owned (world Example.tab_stale) (Bookmark.id Example.github)
  /\ error (state_after (handleDelete Example.props) Example.tab_stale) = None
  /\ bookmarks (state_after (handleDelete Example.props) Example.tab_stale)
     = [Example.rocq]
  /\ db (world_after (handleDelete Example.props) Example.tab_stale)
     = db (world Example.tab_stale).
Proof.
  split.
  - intros r Hr Hid. vm_compute in Hr.
    destruct Hr as [<-|[<-|[]]]; (reflexivity || discriminate).
  - repeat split; reflexivity.
Qed.

(** C9. When the store's delete fails in [confirmDelete], the pending
    target stays set, the items are unchanged and nothing is broadcast; the
    pending target is cleared only when the delete went through. *)
Theorem confirmDelete_failure_keeps_pending (props : Props) (t : Tab)
    (target : Bookmark) :
  deleteTarget (state t) = Some target ->
  (forall message,
     refused (world t) message ->
     deleteTarget (state_after (confirmDelete props) t) = Some target
     /\ bookmarks (state_after (confirmDelete props) t) = bookmarks (state t)
     /\ posted (world_after (confirmDelete props) t) = posted (world t)
     /\ error (state_after (confirmDelete props) t) = Some message)
  /\ (deleteTarget (state_after (confirmDelete props) t) = None ->
      served (world t)
      /\ error (state_after (confirmDelete props) t) = None)
  /\ (served (world t) ->
      deleteTarget (state_after (confirmDelete props) t) = None).
Proof.
  intros Ht. unfold confirmDelete, state_after, world_after.
  split; [|split].
  - intros message Hr. by rewrite (handleDelete_refused _ _ target message).
  - destruct (served_or_refused (world t)) as [Hs|[message Hr]].
    + rewrite (handleDelete_served _ _ target) by done.
      rewrite notifyTabs_state. simpl. auto.
    + rewrite (handleDelete_refused _ _ target message) by done. simpl.
      rewrite Ht. discriminate.
  - intros Hs. rewrite (handleDelete_served _ _ target) by done.
    by rewrite notifyTabs_state.
Qed.

Lemma confirmDelete_failure_keeps_pending_witness :
  deleteTarget (state Example.tab_confirm_down) = Some Example.github
  /\ refused (world Example.tab_confirm_down) "Failed to fetch"
  /\ deleteTarget (state_after (confirmDelete Example.props) Example.tab_confirm_down)
     = Some Example.github
  /\ bookmarks (state_after (confirmDelete Example.props) Example.tab_confirm_down)
     = bookmarks (state Example.tab_confirm_down)
  /\ posted (world_after (confirmDelete Example.props) Example.tab_confirm_down)
     = posted (world Example.tab_confirm_down).
Proof.
  assert (Hr : refused (world Example.tab_confirm_down) "Failed to fetch")
    by (by exists []).
  destruct (confirmDelete_failure_keeps_pending Example.props Example.tab_confirm_down
              Example.github eq_refl) as [Hfail _].
  destruct (Hfail "Failed to fetch" Hr) as (Hd & Hb & Hp & _).
  repeat split; assumption.
Defined.

(** C7. From every state and for every bookmark, asking for a deletion and
    then cancelling sends no command to the store, leaves the items as they
    were and ends with no pending target; asking alone touches nothing
    outside the component either. *)
Theorem requestDelete_cancelDelete_frame (x : Bookmark) (t : Tab) :
  world_after (requestDelete x ;; cancelDelete) t = world t
  /\ requests (world_after (requestDelete x ;; cancelDelete) t) = requests (world t)
  /\ db (world_after (requestDelete x ;; cancelDelete) t) = db (world t)
  /\ bookmarks (state_after (requestDelete x ;; cancelDelete) t) = bookmarks (state t)
  /\ deleteTarget (state_after (requestDelete x ;; cancelDelete) t) = None
  /\ world_after (requestDelete x) t = world t
  /\ deleteTarget (state_after (requestDelete x) t) = Some x
  /\ world_after cancelDelete t = world t.
Proof. repeat split. Qed.

(** ** Tabs *)

Lemma loadBookmarks_BroadcastChannel `{Host} (props : Props) (t : Tab) :
  BroadcastChannel_in_window (world (loadBookmarks props t).2)
  = BroadcastChannel_in_window (world t).
Proof.
  destruct (JS.truthy_opt (userId props)) eqn:Hu.
  - destruct (served_or_refused (world t)) as [Hs|[message Hr]].
    + by rewrite loadBookmarks_served.
    + by rewrite (loadBookmarks_refused _ _ message).
  - by rewrite loadBookmarks_no_identity.
Qed.

Lemma tabChannel_name_inj (u v : string) :
  tabChannel_name u = tabChannel_name v -> u = v.
Proof. unfold tabChannel_name. apply (inj (String.app "bookmarks-sync-")). Qed.

(** C8. For every owner [u], the broadcast channel the tab listens on, when
    it opens one, and the channel it posts to, when it posts, are both named
    "bookmarks-sync-" followed by [u]; so a message posted on the channel of
    another owner [v] reaches no listener of this tab and triggers no
    reload: the tab is as it was. *)
Theorem tabChannel_owner_scoped `{Host} (props : Props) (t : Tab) (u v : string) :
  userId props = Some u ->
  tabChannel (useEffect props t).1
  = (if (isAuthenticated props && JS.truthy u
         && BroadcastChannel_in_window (world t))%bool
     then Some ("bookmarks-sync-" +:+ u) else None)
  /\ posted (world_after (notifyTabs props) t)
     = (if (JS.truthy u && BroadcastChannel_in_window (world t))%bool
        then posted (world t) ++ [("bookmarks-sync-" +:+ u, "bookmarks-changed")]
        else posted (world t))
  /\ (v <> u ->
      forall t', BroadcastChannel_deliver props (useEffect props t).1
                   ("bookmarks-sync-" +:+ v) t' = (tt, t')).
Proof.
  intros Hu.
  assert (Hsubs : tabChannel (useEffect props t).1
                  = (if (isAuthenticated props && JS.truthy u
                         && BroadcastChannel_in_window (world t))%bool
                     then Some ("bookmarks-sync-" +:+ u) else None)).
  { unfold useEffect. rewrite Hu.
    destruct (isAuthenticated props), (JS.truthy u); simpl; try done.
    run. by rewrite loadBookmarks_BroadcastChannel. }
  split; [exact Hsubs|]. split.
  - unfold world_after. by rewrite notifyTabs_posted, Hu.
  - intros Hvu t'. unfold BroadcastChannel_deliver. rewrite Hsubs.
    destruct (isAuthenticated props && JS.truthy u
              && BroadcastChannel_in_window (world t))%bool; [|done].
    assert (Hne : String.eqb ("bookmarks-sync-" +:+ u) ("bookmarks-sync-" +:+ v) = false).
    { apply String.eqb_neq. intros Heq. apply Hvu. symmetry.
      by apply tabChannel_name_inj. }
    by rewrite Hne.
Qed.

Lemma tabChannel_owner_scoped_witness :
  userId Example.props = Some Example.alice
  /\ Example.bob <> Example.alice
  /\ tabChannel (useEffect Example.props Example.tab0).1 = Some "bookmarks-sync-alice"
  /\ posted (world_after (notifyTabs Example.props) Example.tab0)
     = [("bookmarks-sync-alice", "bookmarks-changed")]
  /\ BroadcastChannel_deliver Example.props (useEffect Example.props Example.tab0).1
       "bookmarks-sync-bob" Example.tab0 = (tt, Example.tab0).
Proof.
  assert (Hne : Example.bob <> Example.alice) by discriminate.
  destruct (tabChannel_owner_scoped Example.props Example.tab0
              Example.alice Example.bob eq_refl) as (Hopen & Hpost & Hcross).
  split; [reflexivity|]. split; [exact Hne|].
  split; [exact Hopen|]. split; [exact Hpost|]. exact (Hcross Hne Example.tab0).
Defined.

(** * Further properties *)

(** ** Trimming *)

Lemma trimStart_head (s : string) (c : ascii) :
  head_unit (JS.trimStart s) = Some c -> JS.isWhiteSpace c = false.
Proof.
  induction s as [|a s IH]; simpl; [discriminate|].
  destruct (JS.isWhiteSpace a) eqn:Ha; [exact IH|].
  simpl. intros [= <-]. exact Ha.
Qed.

Lemma trimEnd_head (s : string) (c : ascii) :
  head_unit (JS.trimEnd s) = Some c -> head_unit s = Some c.
Proof.
  destruct s as [|a s]; simpl; [done|].
  destruct (JS.trimEnd s); [destruct (JS.isWhiteSpace a)|]; simpl; congruence.
Qed.

Lemma trimEnd_last (s : string) (c : ascii) :
  last_unit (JS.trimEnd s) = Some c -> JS.isWhiteSpace c = false.
Proof.
  induction s as [|a s IH]; simpl; [discriminate|].
  destruct (JS.trimEnd s) as [|b t] eqn:Ht.
  - destruct (JS.isWhiteSpace a) eqn:Ha; simpl; [discriminate|].
    intros [= <-]. exact Ha.
  - exact IH.
Qed.

Lemma trimStart_app_whitespace (pad s : string) :
  all_whitespace pad = true -> JS.trimStart (pad +:+ s) = JS.trimStart s.
Proof.
  induction pad as [|a pad IH]; simpl_append; [done|]. simpl.
  intros [Ha Hpad]%andb_true_iff. rewrite Ha. auto.
Qed.

Lemma trimEnd_all_whitespace (pad : string) :
  all_whitespace pad = true -> JS.trimEnd pad = EmptyString.
Proof.
  induction pad as [|a pad IH]; simpl; [done|].
  intros [Ha Hpad]%andb_true_iff. by rewrite IH, Ha.
Qed.

Lemma trimEnd_app_whitespace (s pad : string) :
  all_whitespace pad = true -> JS.trimEnd (s +:+ pad) = JS.trimEnd s.
Proof.
  intros Hpad. induction s as [|a s IH]; simpl_append.
  - by apply trimEnd_all_whitespace.
  - simpl. by rewrite IH.
Qed.

Lemma trim_app_whitespace (pad1 s pad2 : string) :
  all_whitespace pad1 = true -> all_whitespace pad2 = true ->
  JS.trim (pad1 +:+ s +:+ pad2) = JS.trim s.
Proof.
  intros H1 H2. unfold JS.trim. rewrite trimStart_app_whitespace by done.
  induction s as [|a s IH]; simpl_append.
  - by rewrite trimStart_all_whitespace.
  - simpl. destruct (JS.isWhiteSpace a); [exact IH|].
    by rewrite <- append_cons, trimEnd_app_whitespace.
Qed.

(** ** Create, the rest *)

Lemma calm_served (w : World) : calm w -> served w.
Proof.
  unfold calm, served. destruct (faults w) as [|f rest]; [by left|].
  intros Hc. apply Forall_cons in Hc as [-> _]. right. by exists rest.
Qed.

Lemma calm_tail (w : World) : calm w -> Forall (fun f => f = None) (tail (faults w)).
Proof.
  unfold calm. destruct (faults w) as [|f rest]; simpl; [done|].
  by intros [_ Hc]%Forall_cons.
Qed.

Lemma valid_input_dec `{Host} (s : State) :
  (exists u, valid_input s u) \/ (forall u, ~ valid_input s u).
Proof.
  unfold valid_input.
  destruct (JS.trim (title s)) as [|a ti] eqn:Hti.
  { right. intros u (Ht & _). done. }
  destruct (URL_parse (JS.trim (url s))) as [u|] eqn:Hparse.
  2: { right. intros u (_ & Hu & _). discriminate. }
  destruct (String.eqb (protocol u) "http:") eqn:Hhttp.
  { left. exists u. apply String.eqb_eq in Hhttp. auto. }
  destruct (String.eqb (protocol u) "https:") eqn:Hhttps.
  { left. exists u. apply String.eqb_eq in Hhttps. auto. }
  right. intros u' (_ & [= <-] & [Hp|Hp]); rewrite Hp in *; discriminate.
Qed.

Lemma handleAdd_invalid `{Host} (props : Props) (t : Tab) :
  (forall u, ~ valid_input (state t) u) ->
  exists message,
    handleAdd props t
    = (tt, {| state := with_error (Some message) (with_error None (state t));
              world := world t |}).
Proof.
  intros Hbad. unfold handleAdd. run.
  destruct (JS.truthy (JS.trim (title (state t)))) eqn:Htitle; simpl.
  2: { eexists. reflexivity. }
  destruct (JS.truthy (JS.trim (url (state t)))) eqn:Hurl; simpl.
  2: { eexists. reflexivity. }
  destruct (URL_parse (JS.trim (url (state t)))) as [parsedUrl|] eqn:Hparse.
  2: { eexists. reflexivity. }
  destruct (String.eqb (protocol parsedUrl) "http:") eqn:Hhttp; simpl.
  { exfalso. apply (Hbad parsedUrl). apply String.eqb_eq in Hhttp.
    split; [|by auto]. intros Ht. by rewrite Ht in Htitle. }
  destruct (String.eqb (protocol parsedUrl) "https:") eqn:Hhttps; simpl.
  { exfalso. apply (Hbad parsedUrl). apply String.eqb_eq in Hhttps.
    split; [|by auto]. intros Ht. by rewrite Ht in Htitle. }
  eexists. reflexivity.
Qed.

Lemma handleAdd_valid `{Host} (props : Props) (t : Tab) (u : URL) :
  valid_input (state t) u ->
  handleAdd props t
  = (r ← supabase_insert (insert_values (state t) u);
     setLoading false;;
     match Response.error r with
     | Some message => setError (Some message)
     | None => setTitle "";; setUrl "";; loadBookmarks props;; notifyTabs props
     end)
      {| state := with_loading true (with_error None (state t)); world := world t |}.
Proof.
  intros (Htitle & Hparse & Hproto). unfold handleAdd. run.
  destruct (JS.truthy (JS.trim (title (state t)))) eqn:Ht; simpl.
  2: { by apply truthy_false in Ht. }
  destruct (JS.truthy (JS.trim (url (state t)))) eqn:Hurl; simpl.
  2: { apply truthy_false in Hurl. rewrite Hurl, URL_parse_empty in Hparse.
       discriminate. }
  rewrite Hparse.
  assert (Hok : (negb (String.eqb (protocol u) "http:")
                 && negb (String.eqb (protocol u) "https:"))%bool = false).
  { destruct Hproto as [-> | ->]; reflexivity. }
  by rewrite Hok.
Qed.

Lemma handleAdd_refused `{Host} (props : Props) (t : Tab) (u : URL) (message : string) :
  valid_input (state t) u ->
  refused (world t) message ->
  handleAdd props t
  = (tt, {| state := with_error (Some message)
                       (with_loading false
                          (with_loading true (with_error None (state t))));
            world := issued (Insert (insert_values (state t) u)) (world t) |}).
Proof.
  intros Hv Hr. rewrite (handleAdd_valid _ _ u) by done. run.
  unfold supabase_insert. by rewrite (supabase_request_refused _ _ _ message).
Qed.

(** The row the store makes of the form for the caller [uid]. *)
Lemma store_insert_row `{Host} (s : State) (u : URL) (w : World) (uid : string) :
  auth_uid w = Some uid ->
  store_insert (insert_values s u) w
  = (Response.mk None None,
     with_serial (S (serial w))
       (with_db (db w ++ [Schema.mk (gen_random_uuid w (serial w)) uid
                            (JS.trim (title s)) (URL_toString u) (now w)]) w)).
Proof.
  intros Hu.
  unfold store_insert, set_bookmark_user_id, insert_values, policy_insert_own,
    auth_uid_eq. simpl.
  rewrite Hu. by rewrite String.eqb_refl.
Qed.

Lemma store_insert_no_session (values : gmap string string) (w : World) :
  auth_uid w = None ->
  (store_insert values w).2 = w /\ Response.error (store_insert values w).1 <> None.
Proof.
  intros Hu. unfold store_insert, set_bookmark_user_id, policy_insert_own. simpl.
  by rewrite Hu.
Qed.

Lemma handleAdd_inserted `{Host} (props : Props) (t : Tab) (u : URL) (uid : string) :
  valid_input (state t) u ->
  auth_uid (world t) = Some uid ->
  served (world t) ->
  handleAdd props t
  = notifyTabs props
      (loadBookmarks props
         {| state := with_url "" (with_title ""
                       (with_loading false
                          (with_loading true (with_error None (state t)))));
            world := with_serial (S (serial (world t)))
                       (with_db
                          (db (world t)
                           ++ [Schema.mk (gen_random_uuid (world t) (serial (world t)))
                                 uid (JS.trim (title (state t))) (URL_toString u)
                                 (now (world t))])
                          (issued (Insert (insert_values (state t) u)) (world t))) |}).2.
Proof.
  intros Hv Hu Hs. rewrite (handleAdd_valid _ _ u) by done. run.
  unfold supabase_insert. rewrite supabase_request_served by done. simpl.
  by rewrite (store_insert_row _ _ _ uid).
Qed.

Lemma owned_rows_snoc (w w' : World) (r : Schema.bookmarks) (uid : string) :
  auth_uid w = Some uid -> auth_uid w' = Some uid ->
  db w' = db w ++ [r] -> Schema.user_id r = uid ->
  owned_rows w' = owned_rows w ++ [r].
Proof.
  intros Hu Hu' Hdb Hr. unfold owned_rows. rewrite Hdb, List.filter_app, Hu, Hu'. simpl.
  by rewrite Hr, String.eqb_refl.
Qed.

(** X1. A form that passes the checks, sent by a signed-in caller to a
    store that answers: the table gains exactly one row, with the trimmed
    title, the text of the parsed URL, the caller as owner and the store's
    clock as creation time; the form is emptied, no error is shown, and with
    an identity the items are reloaded and hold the new bookmark. *)
Theorem handleAdd_success `{Host} (props : Props) (t : Tab) (u : URL) (uid : string) :
  valid_input (state t) u ->
  auth_uid (world t) = Some uid ->
  calm (world t) ->
  let r := Schema.mk (gen_random_uuid (world t) (serial (world t))) uid
             (JS.trim (title (state t))) (href u) (now (world t)) in
  db (world_after (handleAdd props) t) = db (world t) ++ [r]
  /\ title (state_after (handleAdd props) t) = EmptyString
  /\ url (state_after (handleAdd props) t) = EmptyString
  /\ loading (state_after (handleAdd props) t) = false
  /\ error (state_after (handleAdd props) t) = None
  /\ (JS.truthy_opt (userId props) = true ->
      bookmarks (state_after (handleAdd props) t)
      = List.map to_Bookmark
          (stable_sort created_at_desc (owned_rows (world t) ++ [r]))
      /\ In (to_Bookmark r) (bookmarks (state_after (handleAdd props) t)))
  /\ (JS.truthy_opt (userId props) = false ->
      bookmarks (state_after (handleAdd props) t) = bookmarks (state t)).
Proof.
  intros Hv Hu Hc r. unfold state_after, world_after.
  rewrite (handleAdd_inserted _ _ u uid) by auto using calm_served.
  rewrite notifyTabs_state, notifyTabs_db.
  set (t2 := {| state := _; world := _ |}).
  assert (Hs2 : served (world t2)).
  { apply calm_served. unfold calm. simpl. by apply calm_tail. }
  destruct (JS.truthy_opt (userId props)) eqn:Hid.
  - rewrite loadBookmarks_served by done.
    assert (Ho : owned_rows (world t2) = owned_rows (world t) ++ [r]).
    { by apply (owned_rows_snoc _ _ _ uid). }
    rewrite Ho. simpl. split_and!; try done.
    intros _. split; [done|]. apply in_map.
    eapply Permutation_in; [symmetry; apply sort_Permutation|].
    apply in_or_app. right. by left.
  - rewrite loadBookmarks_no_identity by done. simpl. split_and!; done.
Qed.

Lemma handleAdd_success_witness :
  valid_input (state Example.tab_docs)
    {| protocol := "https:"; href := "https://example.com/docs" |}
  /\ calm (world Example.tab_docs)
  /\ db (world_after (handleAdd Example.props) Example.tab_docs)
     = db (world Example.tab_docs)
       ++ [Schema.mk "gen-0" "alice" "Docs" "https://example.com/docs" 400]
  /\ title (state_after (handleAdd Example.props) Example.tab_docs) = EmptyString.
Proof.
  assert (Hv : valid_input (state Example.tab_docs)
                 {| protocol := "https:"; href := "https://example.com/docs" |}).
  { split; [discriminate|]. split; [reflexivity | by right]. }
  assert (Hc : calm (world Example.tab_docs)) by constructor.
  destruct (handleAdd_success Example.props Example.tab_docs _ "alice" Hv eq_refl Hc)
    as (Hdb & Hti & _).
  split; [exact Hv|]. split; [exact Hc|]. split; [exact Hdb | exact Hti].
Defined.

(** X2. A form that passes the checks, when the store answers the insert
    with an error: the message is shown, the form keeps what the user typed,
    the items are as they were, the table is untouched, no reload follows
    and nothing is broadcast. *)
Theorem handleAdd_store_rejection `{Host} (props : Props) (t : Tab) (u : URL)
    (message : string) :
  valid_input (state t) u ->
  refused (world t) message ->
  error (state_after (handleAdd props) t) = Some message
  /\ title (state_after (handleAdd props) t) = title (state t)
  /\ url (state_after (handleAdd props) t) = url (state t)
  /\ bookmarks (state_after (handleAdd props) t) = bookmarks (state t)
  /\ loading (state_after (handleAdd props) t) = false
  /\ db (world_after (handleAdd props) t) = db (world t)
  /\ posted (world_after (handleAdd props) t) = posted (world t)
  /\ requests (world_after (handleAdd props) t)
     = requests (world t) ++ [Insert (insert_values (state t) u)].
Proof.
  intros Hv Hr. unfold state_after, world_after.
  by rewrite (handleAdd_refused _ _ u message).
Qed.

Lemma handleAdd_store_rejection_witness :
  valid_input (state Scenario.tab_docs_down)
    {| protocol := "https:"; href := "https://example.com/docs" |}
  /\ refused (world Scenario.tab_docs_down) "Failed to fetch"
  /\ error (state_after (handleAdd Example.props) Scenario.tab_docs_down)
     = Some "Failed to fetch"
  /\ title (state_after (handleAdd Example.props) Scenario.tab_docs_down) = " Docs ".
Proof.
  assert (Hv : valid_input (state Scenario.tab_docs_down)
                 {| protocol := "https:"; href := "https://example.com/docs" |}).
  { split; [discriminate|]. split; [reflexivity | by right]. }
  assert (Hr : refused (world Scenario.tab_docs_down) "Failed to fetch")
    by (by exists []).
  destruct (handleAdd_store_rejection Example.props Scenario.tab_docs_down _ _ Hv Hr)
    as (He & Hti & _).
  split; [exact Hv|]. split; [exact Hr|]. split; [exact He | exact Hti].
Defined.

(** X3. A form that passes the checks, sent when the client has no session:
    the insert is issued, the store turns it down (the trigger leaves the
    owner null), no row is added, an error is shown, the form is kept and
    neither a reload nor a broadcast follows. *)
Theorem handleAdd_without_session `{Host} (props : Props) (t : Tab) (u : URL) :
  valid_input (state t) u ->
  auth_uid (world t) = None ->
  served (world t) ->
  db (world_after (handleAdd props) t) = db (world t)
  /\ error (state_after (handleAdd props) t) <> None
  /\ title (state_after (handleAdd props) t) = title (state t)
  /\ url (state_after (handleAdd props) t) = url (state t)
  /\ bookmarks (state_after (handleAdd props) t) = bookmarks (state t)
  /\ posted (world_after (handleAdd props) t) = posted (world t)
  /\ requests (world_after (handleAdd props) t)
     = requests (world t) ++ [Insert (insert_values (state t) u)].
Proof.
  intros Hv Hu Hs. unfold state_after, world_after.
  rewrite (handleAdd_valid _ _ u) by done. run.
  unfold supabase_insert. rewrite supabase_request_served by done. simpl.
  destruct (store_insert_no_session (insert_values (state t) u)
              (issued (Insert (insert_values (state t) u)) (world t)) Hu)
    as [-> He].
  destruct (Response.error _) as [message|]; [|done]. by run.
Qed.

Lemma handleAdd_without_session_witness :
  valid_input (state Scenario.tab_signed_out)
    {| protocol := "https:"; href := "https://example.com/docs" |}
  /\ auth_uid (world Scenario.tab_signed_out) = None
  /\ db (world_after (handleAdd Example.props) Scenario.tab_signed_out)
     = db (world Scenario.tab_signed_out)
  /\ error (state_after (handleAdd Example.props) Scenario.tab_signed_out) <> None.
Proof.
  assert (Hv : valid_input (state Scenario.tab_signed_out)
                 {| protocol := "https:"; href := "https://example.com/docs" |}).
  { split; [discriminate|]. split; [reflexivity | by right]. }
  assert (Hs : served (world Scenario.tab_signed_out)) by (by left).
  destruct (handleAdd_without_session Example.props Scenario.tab_signed_out _
              Hv eq_refl Hs) as (Hdb & He & _).
  split; [exact Hv|]. split; [reflexivity|]. split; [exact Hdb | exact He].
Defined.

Lemma loadBookmarks_db `{Host} (props : Props) (t : Tab) :
  db (world (loadBookmarks props t).2) = db (world t).
Proof.
  destruct (JS.truthy_opt (userId props)) eqn:Hu.
  - destruct (served_or_refused (world t)) as [Hs|[message Hr]].
    + by rewrite loadBookmarks_served.
    + by rewrite (loadBookmarks_refused _ _ message).
  - by rewrite loadBookmarks_no_identity.
Qed.

Lemma store_insert_cases (values : gmap string string) (w : World) :
  (store_insert values w).2 = w
  \/ exists r, Response.error (store_insert values w).1 = None
               /\ (store_insert values w).2
                  = with_serial (S (serial w)) (with_db (db w ++ [r]) w)
               /\ Some (Schema.user_id r) = auth_uid w.
Proof.
  unfold store_insert, set_bookmark_user_id, policy_insert_own, auth_uid_eq. simpl.
  destruct (auth_uid w) as [uid|] eqn:Hu; [|by left].
  rewrite String.eqb_refl.
  destruct (values !! "title"); [|by left].
  destruct (values !! "url"); [|by left].
  right. eexists. split; [done|]. split; [reflexivity|]. done.
Qed.

(** What [handleAdd] sends, for every form. *)
Lemma handleAdd_requests `{Host} (props : Props) (t : Tab) :
  requests (world_after (handleAdd props) t) = requests (world t)
  \/ exists u rest,
       valid_input (state t) u
       /\ requests (world_after (handleAdd props) t)
          = requests (world t) ++ Insert (insert_values (state t) u) :: rest
       /\ forall v, ~ In (Insert v) rest.
Proof.
  unfold world_after.
  destruct (valid_input_dec (state t)) as [[u Hv]|Hbad].
  2: { left. destruct (handleAdd_invalid props t Hbad) as [message ->]. done. }
  right. exists u.
  destruct (served_or_refused (world t)) as [Hs|[message Hr]].
  2: { exists []. rewrite (handleAdd_refused _ _ u message) by done.
       split; [done|]. split; [done | by intros v []]. }
  rewrite (handleAdd_valid _ _ u) by done. run.
  unfold supabase_insert. rewrite supabase_request_served by done. simpl.
  set (values := insert_values (state t) u).
  set (w1 := issued (Insert values) (world t)).
  assert (Hreq : requests (store_insert values w1).2
                 = requests (world t) ++ [Insert values]).
  { by rewrite store_insert_requests. }
  destruct (Response.error (store_insert values w1).1) eqn:He; run.
  { exists []. rewrite Hreq. split; [done|]. split; [done | by intros v []]. }
  set (t2 := {| state := _; world := _ |}).
  pose proof (notifyTabs_requests props (loadBookmarks props t2).2) as Hn.
  unfold world_after in Hn. rewrite Hn. clear Hn.
  pose proof (loadBookmarks_requests props t2) as Hl.
  unfold world_after in Hl. subst t2. simpl in Hl. rewrite Hreq in Hl.
  destruct Hl as [-> | ->].
  - exists []. split; [done|]. split; [done | by intros v []].
  - exists [Select "id,title,url,created_at" "created_at" false].
    rewrite <- app_assoc. split; [done|]. split; [done|].
    intros v [Hv'|[]]. discriminate.
Qed.

(** X4. Whatever the form holds, an insert that [handleAdd] issues carries
    a title that is not empty and neither starts nor ends with white space,
    and as url the text of a URL that parsed with scheme http or https. *)
Theorem handleAdd_sends_clean_fields `{Host} (props : Props) (t : Tab)
    (v : gmap string string) :
  In (Insert v) (requests (world_after (handleAdd props) t)) ->
  In (Insert v) (requests (world t))
  \/ (exists ti,
        v !! "title" = Some ti
        /\ ti = JS.trim (title (state t))
        /\ ti <> EmptyString
        /\ (forall c, head_unit ti = Some c -> JS.isWhiteSpace c = false)
        /\ (forall c, last_unit ti = Some c -> JS.isWhiteSpace c = false))
     /\ (exists u,
           v !! "url" = Some (href u)
           /\ URL_parse (JS.trim (url (state t))) = Some u
           /\ (protocol u = "http:" \/ protocol u = "https:")).
Proof.
  intros Hin. destruct (handleAdd_requests props t) as [Heq|(u & rest & Hv & Heq & Hrest)].
  { left. by rewrite <- Heq. }
  rewrite Heq in Hin. apply in_app_or in Hin as [Hin|[Hin|Hin]].
  - by left.
  - right. injection Hin as <-. destruct Hv as (Hti & Hparse & Hproto). split.
    + exists (JS.trim (title (state t))). repeat split; try done.
      * intros c Hc. unfold JS.trim in Hc.
        by apply trimEnd_head, trimStart_head in Hc.
      * intros c Hc. by apply trimEnd_last in Hc.
    + by exists u.
  - by apply Hrest in Hin.
Qed.

Lemma handleAdd_sends_clean_fields_witness :
  In (Insert (<["title" := "Docs"]> (<["url" := "https://example.com/docs"]> ∅)))
    (requests (world_after (handleAdd Example.props) Example.tab_docs))
  /\ exists u,
       (<["title" := "Docs"]> (<["url" := "https://example.com/docs"]> ∅)
          : gmap string string) !! "url" = Some (href u)
       /\ (protocol u = "http:" \/ protocol u = "https:").
Proof.
  assert (Hin : In (Insert (<["title" := "Docs"]>
                              (<["url" := "https://example.com/docs"]> ∅)))
                  (requests (world_after (handleAdd Example.props) Example.tab_docs)))
    by (by left).
  split; [exact Hin|].
  destruct (handleAdd_sends_clean_fields Example.props Example.tab_docs _ Hin)
    as [[]|(_ & u & Hu & _ & Hp)].
  by exists u.
Defined.

(** ** The store *)

Lemma selected_eq `{Host} (w : World) :
  selected w = List.map to_Bookmark (stable_sort created_at_desc (owned_rows w)).
Proof. reflexivity. Qed.

Lemma owned_rows_ext (w w' : World) :
  db w = db w' -> auth_uid w = auth_uid w' -> owned_rows w = owned_rows w'.
Proof. unfold owned_rows. by intros -> ->. Qed.

Lemma others_rows_ext (w w' : World) :
  db w = db w' -> auth_uid w = auth_uid w' -> others_rows w = others_rows w'.
Proof. unfold others_rows, owned. by intros -> ->. Qed.

Lemma In_selected `{Host} (w : World) (b : Bookmark) :
  In b (selected w) <->
  exists r, In r (db w) /\ auth_uid_eq (auth_uid w) (Schema.user_id r) = true
            /\ b = to_Bookmark r.
Proof.
  rewrite selected_eq, in_map_iff. split.
  - intros (r & <- & Hr).
    eapply Permutation_in in Hr; [|apply sort_Permutation].
    apply filter_In in Hr as [Hr Ho]. by exists r.
  - intros (r & Hr & Ho & ->). exists r. split; [done|].
    eapply Permutation_in; [symmetry; apply sort_Permutation|].
    apply filter_In. auto.
Qed.

Lemma auth_uid_eq_true (uid : option string) (user_id : string) :
  auth_uid_eq uid user_id = true <-> uid = Some user_id.
Proof.
  destruct uid as [u|]; simpl; [|done].
  rewrite String.eqb_eq. split; congruence.
Qed.

(** X5. What a select returns is private to the caller: every bookmark it
    hands out is the projection of a row of the table whose owner is the
    caller, every row of the caller is handed out, and without a session
    nothing is. *)
Theorem store_select_private `{Host} (w : World) :
  (forall b, In b (selected w) <->
     exists r, In r (db w) /\ auth_uid w = Some (Schema.user_id r)
               /\ b = to_Bookmark r)
  /\ length (selected w) = length (owned_rows w)
  /\ Response.error (store_select w).1 = None
  /\ (store_select w).2 = w
  /\ (auth_uid w = None -> selected w = []).
Proof.
  split_and!; try done.
  - intros b. rewrite In_selected. by setoid_rewrite auth_uid_eq_true.
  - rewrite selected_eq, length_map. apply Permutation_length, sort_Permutation.
  - intros Hu. rewrite selected_eq. unfold owned_rows. rewrite Hu. simpl.
    by induction (db w).
Qed.

Lemma store_select_private_witness :
  auth_uid (with_auth_uid None Example.world0) = None
  /\ selected (with_auth_uid None Example.world0) = []
  /\ (In Example.news (selected Example.world0) <->
      exists r, In r (db Example.world0)
                /\ auth_uid Example.world0 = Some (Schema.user_id r)
                /\ Example.news = to_Bookmark r).
Proof.
  destruct (store_select_private (with_auth_uid None Example.world0))
    as (_ & _ & _ & _ & Hnone).
  destruct (store_select_private Example.world0) as (Hin & _).
  split; [reflexivity|]. split; [exact (Hnone eq_refl) | exact (Hin Example.news)].
Defined.

Lemma store_insert_accepted (values : gmap string string) (w : World) :
  Response.error (store_insert values w).1 = None ->
  exists uid ti ur,
    auth_uid w = Some uid /\ values !! "title" = Some ti /\ values !! "url" = Some ur
    /\ (store_insert values w).2
       = with_serial (S (serial w))
           (with_db (db w ++ [Schema.mk (gen_random_uuid w (serial w)) uid ti ur (now w)]) w).
Proof.
  unfold store_insert, set_bookmark_user_id, policy_insert_own, auth_uid_eq. simpl.
  destruct (auth_uid w) as [uid|] eqn:Hu; [|done].
  rewrite String.eqb_refl.
  destruct (values !! "title") as [ti|]; [|done].
  destruct (values !! "url") as [ur|]; [|done].
  intros _. by exists uid, ti, ur.
Qed.

(** X6. Insert, then select: when the store accepts an insert, the next
    select of the same caller returns one bookmark more, among them one with
    the title and url of the command; what was visible before still is. *)
Theorem store_insert_then_select `{Host} (values : gmap string string) (w : World) :
  Response.error (store_insert values w).1 = None ->
  (exists b, In b (selected (store_insert values w).2)
             /\ Some (Bookmark.title b) = values !! "title"
             /\ Some (Bookmark.url b) = values !! "url"
             /\ Bookmark.id b = gen_random_uuid w (serial w))
  /\ (forall b, In b (selected w) -> In b (selected (store_insert values w).2))
  /\ length (selected (store_insert values w).2) = S (length (selected w))
  /\ auth_uid (store_insert values w).2 = auth_uid w.
Proof.
  intros He.
  destruct (store_insert_accepted values w He) as (uid & ti & ur & Hu & Hti & Hur & Hw).
  rewrite Hw, Hti, Hur. clear Hw He.
  set (r := Schema.mk _ uid ti ur _).
  set (w' := with_serial _ _).
  assert (Ho : owned_rows w' = owned_rows w ++ [r]).
  { by apply (owned_rows_snoc _ _ _ uid). }
  split_and!.
  - exists (to_Bookmark r). split; [|done].
    rewrite selected_eq, Ho. apply in_map.
    eapply Permutation_in; [symmetry; apply sort_Permutation|].
    apply in_or_app. right. by left.
  - intros b. rewrite !selected_eq, Ho, !in_map_iff.
    intros (r0 & <- & Hr0). exists r0. split; [done|].
    eapply Permutation_in; [symmetry; apply sort_Permutation|].
    eapply Permutation_in in Hr0; [|apply sort_Permutation].
    apply in_or_app. by left.
  - rewrite !selected_eq, !length_map.
    rewrite (Permutation_length (sort_Permutation _ _)), Ho, length_app. simpl.
    rewrite (Permutation_length (sort_Permutation _ _)). lia.
  - done.
Qed.

Lemma store_insert_then_select_witness :
  Response.error
    (store_insert (<["title" := "Docs"]> (<["url" := "https://example.com/docs"]> ∅))
       Example.world0).1 = None
  /\ exists b,
       In b (selected
               (store_insert
                  (<["title" := "Docs"]> (<["url" := "https://example.com/docs"]> ∅))
                  Example.world0).2)
       /\ Bookmark.id b = "gen-0".
Proof.
  assert (He : Response.error
                 (store_insert
                    (<["title" := "Docs"]> (<["url" := "https://example.com/docs"]> ∅))
                    Example.world0).1 = None) by reflexivity.
  split; [exact He|].
  destruct (store_insert_then_select _ Example.world0 He)
    as ((b & Hb & _ & _ & Hid) & _).
  by exists b.
Defined.

Lemma filter_negb_owned_delete (w : World) (value : string) (l : list Schema.bookmarks) :
  List.filter (fun r => negb (owned w r))
    (List.filter
       (fun r => negb (policy_delete_own (auth_uid w) r && String.eqb (Schema.id r) value))
       l)
  = List.filter (fun r => negb (owned w r)) l.
Proof.
  induction l as [|r l IH]; simpl; [done|].
  unfold policy_delete_own, owned in *.
  destruct (auth_uid_eq (auth_uid w) (Schema.user_id r)) eqn:Ho; simpl.
  - destruct (String.eqb (Schema.id r) value); simpl; [done|]. by rewrite Ho.
  - rewrite Ho. simpl. by rewrite IH.
Qed.

Lemma store_delete_selected `{Host} (value : string) (w : World) (b : Bookmark) :
  In b (selected (store_delete value w).2) <->
  In b (selected w) /\ Bookmark.id b <> value.
Proof.
  unfold store_delete. rewrite !In_selected. simpl. split.
  - intros (r & [Hr Hd]%filter_In & Ho & ->). split; [by exists r|].
    unfold policy_delete_own in Hd. rewrite Ho in Hd. simpl in Hd.
    by apply negb_true_iff, String.eqb_neq in Hd.
  - intros [(r & Hr & Ho & ->) Hid]. exists r. split; [|done].
    apply filter_In. split; [done|]. unfold policy_delete_own. rewrite Ho. simpl.
    by apply negb_true_iff, String.eqb_neq.
Qed.

Lemma store_delete_db (value : string) (w : World) (r : Schema.bookmarks) :
  In r (db (store_delete value w).2) <->
  In r (db w) /\ ~ (auth_uid w = Some (Schema.user_id r) /\ Schema.id r = value).
Proof.
  unfold store_delete. simpl.
  rewrite filter_In, negb_true_iff, andb_false_iff.
  unfold policy_delete_own. rewrite <- auth_uid_eq_true, String.eqb_neq.
  rewrite <- not_true_iff_false. split; intros [Hr Hn]; (split; [done|]).
  - intros [Ho Hid]. by destruct Hn.
  - destruct (auth_uid_eq (auth_uid w) (Schema.user_id r)); [|by left].
    right. intros Hid. by apply Hn.
Qed.

(** X7. Delete, then select: after a delete by id the caller's select holds
    no bookmark of that id and every other bookmark it held before; the
    store reports no error, whether or not a row was removed, and the rows
    of other owners stay, those of the same id included. *)
Theorem store_delete_then_select `{Host} (value : string) (w : World) :
  (forall b, In b (selected (store_delete value w).2) <->
     In b (selected w) /\ Bookmark.id b <> value)
  /\ Response.error (store_delete value w).1 = None
  /\ others_rows (store_delete value w).2 = others_rows w
  /\ (forall r, In r (db (store_delete value w).2) <->
        In r (db w) /\ ~ (auth_uid w = Some (Schema.user_id r) /\ Schema.id r = value)).
Proof.
  split_and!.
  - apply store_delete_selected.
  - done.
  - exact (filter_negb_owned_delete w value (db w)).
  - apply store_delete_db.
Qed.

Lemma store_delete_then_select_witness :
  (In Example.github (selected (store_delete "a2" Example.world0).2) <->
   In Example.github (selected Example.world0) /\ Bookmark.id Example.github <> "a2")
  /\ others_rows (store_delete "b1" Example.world0).2 = others_rows Example.world0.
Proof.
  destruct (store_delete_then_select "a2" Example.world0) as (Hin & _).
  destruct (store_delete_then_select "b1" Example.world0) as (_ & _ & Hothers & _).
  split; [exact (Hin Example.github) | exact Hothers].
Defined.

(** ** Handlers and the store *)

Lemma notifyTabs_world (props : Props) (t : Tab) :
  world (notifyTabs props t).2 = world t
  \/ exists v, world (notifyTabs props t).2 = with_posted v (world t).
Proof.
  unfold notifyTabs. run. destruct (userId props) as [u|]; [|by left].
  destruct (negb (JS.truthy u) || negb (BroadcastChannel_in_window (world t)))%bool;
    [by left | right; by eexists].
Qed.

Lemma notifyTabs_auth_uid (props : Props) (t : Tab) :
  auth_uid (world (notifyTabs props t).2) = auth_uid (world t).
Proof. by destruct (notifyTabs_world props t) as [-> | [v ->]]. Qed.

Lemma notifyTabs_faults (props : Props) (t : Tab) :
  faults (world (notifyTabs props t).2) = faults (world t).
Proof. by destruct (notifyTabs_world props t) as [-> | [v ->]]. Qed.

Lemma loadBookmarks_world `{Host} (props : Props) (t : Tab) :
  world (loadBookmarks props t).2 = world t
  \/ world (loadBookmarks props t).2
     = issued (Select "id,title,url,created_at" "created_at" false) (world t).
Proof.
  destruct (JS.truthy_opt (userId props)) eqn:Hu.
  - right. destruct (served_or_refused (world t)) as [Hs|[message Hr]].
    + by rewrite loadBookmarks_served.
    + by rewrite (loadBookmarks_refused _ _ message).
  - left. by rewrite loadBookmarks_no_identity.
Qed.

Lemma loadBookmarks_auth_uid `{Host} (props : Props) (t : Tab) :
  auth_uid (world (loadBookmarks props t).2) = auth_uid (world t).
Proof. by destruct (loadBookmarks_world props t) as [-> | ->]. Qed.

Lemma loadBookmarks_posted `{Host} (props : Props) (t : Tab) :
  posted (world (loadBookmarks props t).2) = posted (world t).
Proof. by destruct (loadBookmarks_world props t) as [-> | ->]. Qed.

Lemma handleDelete_no_target (props : Props) (t : Tab) :
  deleteTarget (state t) = None -> handleDelete props t = (tt, t).
Proof. intros Ht. unfold handleDelete. run. by rewrite Ht. Qed.

Lemma selected_ext `{Host} (w w' : World) :
  db w = db w' -> auth_uid w = auth_uid w' -> selected w = selected w'.
Proof. intros Hdb Hu. by rewrite !selected_eq, (owned_rows_ext w w'). Qed.

(** X8. Confirming the deletion of a bookmark when the store answers: the
    rows of the caller with that id leave the table and no other row does;
    the items of that id leave the list at once, without a reload; the
    dialog closes, no error is shown, exactly one delete command was sent,
    and a select made afterwards returns what it returned before without
    the bookmarks of that id. *)
Theorem handleDelete_removes_own_rows `{Host} (props : Props) (t : Tab)
    (target : Bookmark) :
  deleteTarget (state t) = Some target ->
  served (world t) ->
  (forall r, In r (db (world_after (handleDelete props) t)) <->
     In r (db (world t))
     /\ ~ (auth_uid (world t) = Some (Schema.user_id r)
           /\ Schema.id r = Bookmark.id target))
  /\ bookmarks (state_after (handleDelete props) t)
     = List.filter
         (fun bookmark => negb (String.eqb (Bookmark.id bookmark) (Bookmark.id target)))
         (bookmarks (state t))
  /\ deleteTarget (state_after (handleDelete props) t) = None
  /\ error (state_after (handleDelete props) t) = None
  /\ deleteLoading (state_after (handleDelete props) t) = false
  /\ requests (world_after (handleDelete props) t)
     = requests (world t) ++ [Delete_eq "id" (Bookmark.id target)]
  /\ (forall b, In b (selected (world_after (handleDelete props) t)) <->
        In b (selected (world t)) /\ Bookmark.id b <> Bookmark.id target).
Proof.
  intros Ht Hs. unfold state_after, world_after.
  rewrite (handleDelete_served _ _ target) by done.
  set (w1 := issued (Delete_eq "id" (Bookmark.id target)) (world t)).
  set (t2 := {| state := _; world := _ |}).
  pose proof (notifyTabs_requests props t2) as Hreq. unfold world_after in Hreq.
  rewrite notifyTabs_state, notifyTabs_db, Hreq.
  rewrite (selected_ext (world (notifyTabs props t2).2) (world t2))
    by auto using notifyTabs_db, notifyTabs_auth_uid.
  split_and!; try done.
  - intros r. subst t2. cbn [world]. by rewrite store_delete_db.
  - intros b. subst t2. cbn [world]. rewrite store_delete_selected.
    by rewrite (selected_ext w1 (world t)).
Qed.

Lemma handleDelete_removes_own_rows_witness :
  deleteTarget (state Scenario.tab_confirm_github) = Some Example.github
  /\ served (world Scenario.tab_confirm_github)
  /\ bookmarks (state_after (handleDelete Example.props) Scenario.tab_confirm_github)
     = [Example.rocq]
  /\ (In Example.rocq
        (selected (world_after (handleDelete Example.props) Scenario.tab_confirm_github))
      <-> In Example.rocq (selected (world Scenario.tab_confirm_github))
          /\ Bookmark.id Example.rocq <> Bookmark.id Example.github).
Proof.
  assert (Hs : served (world Scenario.tab_confirm_github)) by (by left).
  destruct (handleDelete_removes_own_rows Example.props Scenario.tab_confirm_github
              Example.github eq_refl Hs) as (_ & Hb & _ & _ & _ & _ & Hsel).
  split; [reflexivity|]. split; [exact Hs|].
  split; [exact Hb | exact (Hsel Example.rocq)].
Defined.

Lemma handleDelete_world (props : Props) (t : Tab) :
  auth_uid (world (handleDelete props t).2) = auth_uid (world t)
  /\ (db (world (handleDelete props t).2) = db (world t)
      \/ exists value,
           db (world (handleDelete props t).2) = db (store_delete value (world t)).2).
Proof.
  destruct (deleteTarget (state t)) as [target|] eqn:Ht.
  2: { rewrite handleDelete_no_target by done. auto. }
  destruct (served_or_refused (world t)) as [Hs|[message Hr]].
  - rewrite (handleDelete_served _ _ target) by done.
    rewrite notifyTabs_auth_uid, notifyTabs_db. simpl. split; [done|].
    right. by exists (Bookmark.id target).
  - rewrite (handleDelete_refused _ _ target message) by done. simpl. auto.
Qed.

Lemma handleAdd_world `{Host} (props : Props) (t : Tab) :
  auth_uid (world (handleAdd props t).2) = auth_uid (world t)
  /\ (db (world (handleAdd props t).2) = db (world t)
      \/ exists r, db (world (handleAdd props t).2) = db (world t) ++ [r]
                   /\ Some (Schema.user_id r) = auth_uid (world t)).
Proof.
  destruct (valid_input_dec (state t)) as [[u Hv]|Hbad].
  2: { destruct (handleAdd_invalid props t Hbad) as [message ->]. simpl. auto. }
  destruct (served_or_refused (world t)) as [Hs|[message Hr]].
  2: { rewrite (handleAdd_refused _ _ u message) by done. simpl. auto. }
  rewrite (handleAdd_valid _ _ u) by done. run.
  unfold supabase_insert. rewrite supabase_request_served by done. simpl.
  set (values := insert_values (state t) u).
  set (w1 := issued (Insert values) (world t)).
  destruct (store_insert_cases values w1) as [Hw|(r & He & Hw & Hr)].
  - destruct (Response.error (store_insert values w1).1); run.
    + rewrite Hw. simpl. auto.
    + rewrite notifyTabs_auth_uid, notifyTabs_db, loadBookmarks_auth_uid,
        loadBookmarks_db. simpl. rewrite Hw. simpl. auto.
  - rewrite He. run.
    rewrite notifyTabs_auth_uid, notifyTabs_db, loadBookmarks_auth_uid,
      loadBookmarks_db. simpl. rewrite Hw. simpl. split; [done|].
    right. by exists r.
Qed.

Lemma others_rows_snoc_owned (w w' : World) (r : Schema.bookmarks) :
  auth_uid w' = auth_uid w -> db w' = db w ++ [r] ->
  Some (Schema.user_id r) = auth_uid w ->
  others_rows w' = others_rows w.
Proof.
  intros Hu Hdb Hr. unfold others_rows, owned. rewrite Hdb, Hu, List.filter_app.
  simpl. rewrite <- Hr. simpl. rewrite String.eqb_refl. simpl. apply app_nil_r.
Qed.

(** X9. No handler of the component touches what belongs to someone else:
    whatever the state, the props and the answers of the store, a reload, a
    create and a confirmed delete leave the rows of all other owners in the
    table, unchanged and in their order, and leave the session as it is. *)
Theorem handlers_keep_others_rows `{Host} (props : Props) (t : Tab) :
  (others_rows (world_after (loadBookmarks props) t) = others_rows (world t)
   /\ db (world_after (loadBookmarks props) t) = db (world t)
   /\ auth_uid (world_after (loadBookmarks props) t) = auth_uid (world t))
  /\ (others_rows (world_after (handleAdd props) t) = others_rows (world t)
      /\ auth_uid (world_after (handleAdd props) t) = auth_uid (world t))
  /\ (others_rows (world_after (handleDelete props) t) = others_rows (world t)
      /\ auth_uid (world_after (handleDelete props) t) = auth_uid (world t)).
Proof.
  unfold world_after. split_and!.
  - apply others_rows_ext; auto using loadBookmarks_db, loadBookmarks_auth_uid.
  - apply loadBookmarks_db.
  - apply loadBookmarks_auth_uid.
  - destruct (handleAdd_world props t) as [Hu [Hdb|(r & Hdb & Hr)]].
    + by apply others_rows_ext.
    + by apply (others_rows_snoc_owned _ _ r).
  - apply handleAdd_world.
  - destruct (handleDelete_world props t) as [Hu [Hdb|(value & Hdb)]].
    + by apply others_rows_ext.
    + unfold others_rows, owned. rewrite Hdb, Hu.
      exact (filter_negb_owned_delete (world t) value (db (world t))).
  - apply handleDelete_world.
Qed.

(** X10. A reload only reads: it writes the items or the error, never both,
    and no other cell of the state; it sends at most the one select and
    posts nothing. *)
Theorem loadBookmarks_only_reads `{Host} (props : Props) (t : Tab) :
  (bookmarks (state_after (loadBookmarks props) t) = bookmarks (state t)
   \/ error (state_after (loadBookmarks props) t) = error (state t))
  /\ title (state_after (loadBookmarks props) t) = title (state t)
  /\ url (state_after (loadBookmarks props) t) = url (state t)
  /\ search (state_after (loadBookmarks props) t) = search (state t)
  /\ sortBy (state_after (loadBookmarks props) t) = sortBy (state t)
  /\ deleteTarget (state_after (loadBookmarks props) t) = deleteTarget (state t)
  /\ loading (state_after (loadBookmarks props) t) = loading (state t)
  /\ posted (world_after (loadBookmarks props) t) = posted (world t)
  /\ (requests (world_after (loadBookmarks props) t) = requests (world t)
      \/ requests (world_after (loadBookmarks props) t)
         = requests (world t) ++ [Select "id,title,url,created_at" "created_at" false]).
Proof.
  unfold state_after, world_after.
  destruct (JS.truthy_opt (userId props)) eqn:Hu.
  - destruct (served_or_refused (world t)) as [Hs|[message Hr]].
    + rewrite loadBookmarks_served by done. simpl. split_and!; auto.
    + rewrite (loadBookmarks_refused _ _ message) by done. simpl. split_and!; auto.
  - rewrite loadBookmarks_no_identity by done. split_and!; auto.
Qed.

(** X11. A reload that goes through does not take back the message of a
    reload that failed: after a failed reload followed by a successful one
    the items are the store's current list and the error still shows the
    old message. *)
Theorem reload_keeps_earlier_error `{Host} (props : Props) (t : Tab)
    (message : string) (rest : list (option string)) :
  JS.truthy_opt (userId props) = true ->
  faults (world t) = Some message :: rest ->
  rest = [] \/ (exists rest', rest = None :: rest') ->
  error (state_after (loadBookmarks props ;; loadBookmarks props) t) = Some message
  /\ bookmarks (state_after (loadBookmarks props ;; loadBookmarks props) t)
     = selected (world t).
Proof.
  intros Hu Hf Hrest. unfold state_after. run.
  rewrite (loadBookmarks_refused _ t message) by (done || by exists rest).
  rewrite loadBookmarks_served; [done | done |].
  unfold served. simpl. by rewrite Hf.
Qed.

Lemma reload_keeps_earlier_error_witness :
  JS.truthy_opt (userId Example.props) = true
  /\ faults (world Scenario.tab_flaky) = [Some "Failed to fetch"; None]
  /\ error (state_after (loadBookmarks Example.props ;; loadBookmarks Example.props)
              Scenario.tab_flaky) = Some "Failed to fetch"
  /\ bookmarks (state_after (loadBookmarks Example.props ;; loadBookmarks Example.props)
                  Scenario.tab_flaky) = selected (world Scenario.tab_flaky).
Proof.
  destruct (reload_keeps_earlier_error Example.props Scenario.tab_flaky
              "Failed to fetch" [None] eq_refl eq_refl
              (or_intror (ex_intro _ [] eq_refl))) as [He Hb].
  split; [reflexivity|]. split; [reflexivity|]. split; [exact He | exact Hb].
Defined.

(** ** Tabs, mounting and the page *)

Lemma BroadcastChannel_deliver_own `{Host} (props : Props) (subs : Subscriptions)
    (u : string) (t : Tab) :
  tabChannel subs = Some (tabChannel_name u) ->
  BroadcastChannel_deliver props subs (tabChannel_name u) t = loadBookmarks props t.
Proof.
  intros Hs. unfold BroadcastChannel_deliver, tabChannel_onmessage.
  by rewrite Hs, String.eqb_refl.
Qed.

(** X12. Two tabs of one user: when one tab has deleted a bookmark, the
    message it posts is the last on the channel the other tab listens on;
    delivered there, it makes the other tab reload, after which its items
    are the store's current list, whatever they were, and hold no bookmark
    of the deleted id. *)
Theorem sibling_tab_converges_after_delete `{Host} (props : Props) (t : Tab)
    (target : Bookmark) (u : string) (subs : Subscriptions) (sibling : State) :
  userId props = Some u ->
  JS.truthy u = true ->
  BroadcastChannel_in_window (world t) = true ->
  deleteTarget (state t) = Some target ->
  calm (world t) ->
  tabChannel subs = Some (tabChannel_name u) ->
  last (posted (world_after (handleDelete props) t))
  = Some (tabChannel_name u, "bookmarks-changed")
  /\ bookmarks
       (state_after (BroadcastChannel_deliver props subs (tabChannel_name u))
          {| state := sibling; world := world_after (handleDelete props) t |})
     = selected (world_after (handleDelete props) t)
  /\ forall b,
       In b (bookmarks
               (state_after (BroadcastChannel_deliver props subs (tabChannel_name u))
                  {| state := sibling; world := world_after (handleDelete props) t |})) ->
       In b (selected (world t)) /\ Bookmark.id b <> Bookmark.id target.
Proof.
  intros Hu Htr Hbc Ht Hc Hsubs.
  assert (Hid : JS.truthy_opt (userId props) = true) by (by rewrite Hu).
  pose proof (calm_served _ Hc) as Hs.
  assert (Hserved : served (world_after (handleDelete props) t)).
  { unfold world_after. rewrite (handleDelete_served _ _ target) by done.
    apply calm_served. unfold calm. rewrite notifyTabs_faults. simpl.
    by apply calm_tail. }
  assert (Hsel : forall b, In b (selected (world_after (handleDelete props) t)) ->
                   In b (selected (world t)) /\ Bookmark.id b <> Bookmark.id target).
  { intros b. unfold world_after. rewrite (handleDelete_served _ _ target) by done.
    set (t2 := {| state := _; world := _ |}).
    rewrite (selected_ext (world (notifyTabs props t2).2) (world t2))
      by auto using notifyTabs_db, notifyTabs_auth_uid.
    subst t2. cbn [world]. rewrite store_delete_selected.
    by rewrite (selected_ext (issued _ (world t)) (world t)). }
  split_and!.
  - unfold world_after. rewrite (handleDelete_served _ _ target) by done.
    rewrite notifyTabs_posted, Hu. simpl. rewrite Htr, Hbc. simpl.
    apply last_snoc.
  - unfold state_after. rewrite BroadcastChannel_deliver_own by done.
    by rewrite loadBookmarks_served.
  - unfold state_after. rewrite BroadcastChannel_deliver_own by done.
    rewrite loadBookmarks_served by done. exact Hsel.
Qed.

Lemma sibling_tab_converges_after_delete_witness :
  calm (world Scenario.tab_confirm_github)
  /\ last (posted (world_after (handleDelete Example.props) Scenario.tab_confirm_github))
     = Some (tabChannel_name "alice", "bookmarks-changed")
  /\ bookmarks
       (state_after
          (BroadcastChannel_deliver Example.props
             {| channel := None; tabChannel := Some (tabChannel_name "alice") |}
             (tabChannel_name "alice"))
          {| state := Example.state0;
             world := world_after (handleDelete Example.props)
                        Scenario.tab_confirm_github |})
     = selected (world_after (handleDelete Example.props) Scenario.tab_confirm_github).
Proof.
  assert (Hc : calm (world Scenario.tab_confirm_github)) by constructor.
  destruct (sibling_tab_converges_after_delete Example.props
              Scenario.tab_confirm_github Example.github "alice"
              {| channel := None; tabChannel := Some (tabChannel_name "alice") |}
              Example.state0 eq_refl eq_refl eq_refl eq_refl Hc eq_refl)
    as (Hlast & Hb & _).
  split; [exact Hc|]. split; [exact Hlast | exact Hb].
Defined.

(** X13. Mounting: without authentication or without an identity the
    effect does nothing at all; with both it reloads once, subscribes to the
    realtime topic "bookmarks-" followed by the identity, and opens the
    broadcast channel exactly when the browser has one, the realtime
    subscription being made either way. *)
Theorem useEffect_mount `{Host} (props : Props) (t : Tab) :
  (isAuthenticated props = false \/ JS.truthy_opt (userId props) = false ->
   useEffect props t = ({| channel := None; tabChannel := None |}, t))
  /\ (forall u,
        isAuthenticated props = true -> userId props = Some u -> JS.truthy u = true ->
        (useEffect props t).2 = (loadBookmarks props t).2
        /\ requests (world_after (useEffect props) t)
           = requests (world t) ++ [Select "id,title,url,created_at" "created_at" false]
        /\ channel (useEffect props t).1 = Some ("bookmarks-" +:+ u)
        /\ (BroadcastChannel_in_window (world t) = false ->
            tabChannel (useEffect props t).1 = None)
        /\ (BroadcastChannel_in_window (world t) = true ->
            tabChannel (useEffect props t).1 = Some ("bookmarks-sync-" +:+ u))).
Proof.
  split.
  - unfold useEffect. destruct (userId props) as [u|]; [|done].
    simpl. intros [-> | ->]; [done|]. by rewrite orb_true_r.
  - intros u Ha Hu Htr. unfold useEffect, world_after. rewrite Hu, Ha, Htr. run.
    rewrite loadBookmarks_BroadcastChannel.
    assert (Hid : JS.truthy_opt (userId props) = true) by (by rewrite Hu).
    split_and!; try done.
    + destruct (loadBookmarks_requests props t) as [Hr|Hr]; [|exact Hr].
      exfalso. unfold world_after in Hr.
      destruct (served_or_refused (world t)) as [Hs|[message Hf]].
      * rewrite loadBookmarks_served in Hr by done. simpl in Hr.
        apply (f_equal length) in Hr. rewrite length_app in Hr. simpl in Hr. lia.
      * rewrite (loadBookmarks_refused _ _ message) in Hr by done. simpl in Hr.
        apply (f_equal length) in Hr. rewrite length_app in Hr. simpl in Hr. lia.
    + by intros ->.
    + by intros ->.
Qed.

Lemma useEffect_mount_witness :
  isAuthenticated Example.anonymous = false
  /\ useEffect Example.anonymous Example.tab0
     = ({| channel := None; tabChannel := None |}, Example.tab0)
  /\ JS.truthy Example.alice = true
  /\ channel (useEffect Example.props Example.tab0).1 = Some "bookmarks-alice".
Proof.
  destruct (useEffect_mount Example.anonymous Example.tab0) as [Hnone _].
  destruct (useEffect_mount Example.props Example.tab0) as [_ Hsome].
  destruct (Hsome Example.alice eq_refl eq_refl eq_refl) as (_ & _ & Hch & _).
  split; [reflexivity|]. split; [exact (Hnone (or_introl eq_refl))|].
  split; [reflexivity | exact Hch].
Defined.

(** X14. The page hands the component an identity exactly when it tells it
    the visitor is authenticated, and then it is the id of the session's
    user; for a visitor without a session the component's effect, its reload
    and its broadcast do nothing. *)
Theorem HomePage_props `{Host} (session : option Auth.Session) (t : Tab) :
  (isAuthenticated (HomePage session) = true <-> session <> None)
  /\ (isAuthenticated (HomePage session) = true <->
      exists id, userId (HomePage session) = Some id)
  /\ (forall s, session = Some s ->
        userId (HomePage session) = Some (Auth.id (Auth.user s))
        /\ userEmail (HomePage session) = Auth.email (Auth.user s))
  /\ (session = None ->
      useEffect (HomePage session) t = ({| channel := None; tabChannel := None |}, t)
      /\ loadBookmarks (HomePage session) t = (tt, t)
      /\ notifyTabs (HomePage session) t = (tt, t)).
Proof.
  destruct session as [s|]; simpl; split_and!; try done.
  - split; [by eexists | done].
  - by intros s' [= <-].
  - split; [done | by intros [id Hid]].
Qed.

Lemma HomePage_props_witness :
  userId (HomePage (Some Scenario.session)) = Some "alice"
  /\ useEffect (HomePage None) Example.tab0
     = ({| channel := None; tabChannel := None |}, Example.tab0).
Proof.
  destruct (HomePage_props (Some Scenario.session) Example.tab0) as (_ & _ & Hs & _).
  destruct (HomePage_props None Example.tab0) as (_ & _ & _ & Hn).
  split; [exact (proj1 (Hs _ eq_refl)) | exact (proj1 (Hn eq_refl))].
Defined.

(** ** The view, the rest *)

Lemma isWhiteSpace_toLowerCase_unit (c : ascii) :
  JS.isWhiteSpace (JS.toLowerCase_unit c) = JS.isWhiteSpace c.
Proof. by destruct c as [[] [] [] [] [] [] [] []]. Qed.

Lemma toLowerCase_unit_idemp (c : ascii) :
  JS.toLowerCase_unit (JS.toLowerCase_unit c) = JS.toLowerCase_unit c.
Proof. by destruct c as [[] [] [] [] [] [] [] []]. Qed.

Lemma toLowerCase_idemp (s : string) :
  JS.toLowerCase (JS.toLowerCase s) = JS.toLowerCase s.
Proof.
  induction s as [|c s IH]; simpl; [done|]. by rewrite toLowerCase_unit_idemp, IH.
Qed.

Lemma toLowerCase_trimStart (s : string) :
  JS.trimStart (JS.toLowerCase s) = JS.toLowerCase (JS.trimStart s).
Proof.
  induction s as [|c s IH]; simpl; [done|].
  rewrite isWhiteSpace_toLowerCase_unit. by destruct (JS.isWhiteSpace c).
Qed.

Lemma toLowerCase_trimEnd (s : string) :
  JS.trimEnd (JS.toLowerCase s) = JS.toLowerCase (JS.trimEnd s).
Proof.
  induction s as [|c s IH]; simpl; [done|].
  rewrite IH, isWhiteSpace_toLowerCase_unit.
  destruct (JS.trimEnd s); simpl; [by destruct (JS.isWhiteSpace c) | done].
Qed.

Lemma toLowerCase_trim (s : string) :
  JS.trim (JS.toLowerCase s) = JS.toLowerCase (JS.trim s).
Proof. unfold JS.trim. by rewrite toLowerCase_trimStart, toLowerCase_trimEnd. Qed.

Lemma filteredBookmarks_search_ext `{Host} (s : State) (q : string) :
  JS.toLowerCase (JS.trim q) = JS.toLowerCase (JS.trim (search s)) ->
  filteredBookmarks (with_search q s) = filteredBookmarks s.
Proof.
  intros Hq. unfold filteredBookmarks. apply filter_ext. intros b.
  unfold matchesSearch. simpl. by rewrite Hq.
Qed.

(** X15. The view does not depend on the letter case of the query nor on
    white space around it: the lower-cased query, and the query with white
    space put before and after it, give the same view as the query itself. *)
Theorem filteredBookmarks_query_case_and_padding `{Host} (s : State) (pad1 pad2 : string) :
  filteredBookmarks (with_search (JS.toLowerCase (search s)) s) = filteredBookmarks s
  /\ (all_whitespace pad1 = true -> all_whitespace pad2 = true ->
      filteredBookmarks (with_search (pad1 +:+ search s +:+ pad2) s)
      = filteredBookmarks s).
Proof.
  split.
  - apply filteredBookmarks_search_ext.
    by rewrite toLowerCase_trim, toLowerCase_idemp.
  - intros H1 H2. apply filteredBookmarks_search_ext.
    by rewrite trim_app_whitespace.
Qed.

Lemma filteredBookmarks_query_case_and_padding_witness :
  all_whitespace " " = true
  /\ filteredBookmarks (with_search (" " +:+ search Example.state_git +:+ " ")
                          Example.state_git)
     = filteredBookmarks Example.state_git.
Proof.
  split; [reflexivity|].
  exact (proj2 (filteredBookmarks_query_case_and_padding Example.state_git " " " ")
           eq_refl eq_refl).
Defined.

Lemma StronglySorted_rev {A} (R : A -> A -> Prop) (l : list A) :
  StronglySorted R l -> StronglySorted (fun a b => R b a) (rev l).
Proof.
  induction 1 as [|x l Hl IH Hx]; simpl; [constructor|].
  apply sorting.StronglySorted_app_2; [|done|repeat constructor].
  intros a b Ha Hb. apply list_elem_of_In, in_rev in Ha.
  apply list_elem_of_In in Hb as [<-|[]].
  rewrite Forall_forall in Hx. apply Hx. by apply list_elem_of_In.
Qed.

Lemma In_filteredBookmarks `{Host} (s : State) (b : Bookmark) :
  In b (filteredBookmarks s) -> In b (bookmarks s).
Proof.
  intros [Hb _]%filter_In.
  eapply Permutation_in; [apply sort_Permutation | exact Hb].
Qed.

(** X16. When no two items compare equal by creation time, the view sorted
    oldest first is the view sorted latest first, read backwards. *)
Theorem oldest_is_latest_reversed `{C : ConsistentCollation} (s : State) :
  (forall a b, In a (bookmarks s) -> In b (bookmarks s) ->
     localeCompare (Bookmark.created_at a) (Bookmark.created_at b) <= 0 ->
     localeCompare (Bookmark.created_at b) (Bookmark.created_at a) <= 0 ->
     a = b) ->
  filteredBookmarks (with_sortBy oldest s)
  = rev (filteredBookmarks (with_sortBy latest s)).
Proof.
  intros Hdistinct.
  apply (sorting.StronglySorted_unique_strong (ordered_by oldest)).
  - intros a b Ha Hb. simpl. intros Hab Hba.
    apply list_elem_of_In, In_filteredBookmarks in Ha.
    apply list_elem_of_In, in_rev, In_filteredBookmarks in Hb.
    by apply Hdistinct.
  - apply filter_StronglySorted, (sortedBookmarks_StronglySorted (with_sortBy oldest s)).
  - apply (StronglySorted_rev (ordered_by latest)).
    apply filter_StronglySorted, (sortedBookmarks_StronglySorted (with_sortBy latest s)).
  - rewrite <- Permutation_rev.
    rewrite (filteredBookmarks_Permutation (with_sortBy oldest s)).
    by rewrite (filteredBookmarks_Permutation (with_sortBy latest s)).
Qed.

(** Two items with the same creation time keep their list order under both
    sorts, so there the one view is not the other read backwards. *)
Lemma oldest_latest_tie_example :
  filteredBookmarks (with_sortBy oldest Scenario.state_tie)
  = filteredBookmarks (with_sortBy latest Scenario.state_tie)
  /\ filteredBookmarks (with_sortBy oldest Scenario.state_tie)
     <> rev (filteredBookmarks (with_sortBy latest Scenario.state_tie)).
Proof. split; [reflexivity | discriminate]. Qed.

Lemma oldest_is_latest_reversed_witness :
  ConsistentCollation Example.host
  /\ filteredBookmarks (with_sortBy oldest Example.state0)
     = rev (filteredBookmarks (with_sortBy latest Example.state0)).
Proof.
  split; [exact example_collation|].
  apply (oldest_is_latest_reversed (C := example_collation) Example.state0).
  intros a b Ha Hb. simpl in Ha, Hb.
  destruct Ha as [<-|[<-|[]]], Hb as [<-|[<-|[]]]; vm_compute; congruence.
Defined.

(** ** The avatar *)

Lemma trimEnd_cons (c : ascii) (s : string) :
  JS.isWhiteSpace c = false -> exists t, JS.trimEnd (String c s) = String c t.
Proof.
  intros Hc. simpl. destruct (JS.trimEnd s); rewrite ?Hc; by eexists.
Qed.

(** X17. The initial shown in the avatar: "U" when there is no email; the
    empty string, not "U", when the email is empty or blank; otherwise the
    upper case of the first code unit that is not white space, whatever
    follows it, which for a letter a-z is the capital letter. *)
Theorem profileInitial_cases (props : Props) :
  (userEmail props = None -> profileInitial props = Some "U")
  /\ (forall email, userEmail props = Some email -> JS.trim email = EmptyString ->
        profileInitial props = Some EmptyString)
  /\ (forall pad c rest,
        userEmail props = Some (pad +:+ String c rest) ->
        all_whitespace pad = true -> JS.isWhiteSpace c = false ->
        profileInitial props = JS.toUpperCase (String c EmptyString)
        /\ ((N.leb 97 (N_of_ascii c) && N.leb (N_of_ascii c) 122)%bool = true ->
            profileInitial props
            = Some (String (ascii_of_N (N_of_ascii c - 32)) EmptyString))).
Proof.
  unfold profileInitial. split_and!.
  - by intros ->.
  - intros email -> Ht. by rewrite Ht.
  - intros pad c rest -> Hpad Hc. unfold JS.trim.
    rewrite trimStart_app_whitespace by done. simpl JS.trimStart. rewrite Hc.
    destruct (trimEnd_cons c rest Hc) as [t ->]. split; [done|].
    intros Hletter. simpl. unfold JS.toUpperCase_unit. by rewrite Hletter.
Qed.

Lemma profileInitial_cases_witness :
  profileInitial (HomePage (Some Scenario.session)) = Some "A"
  /\ profileInitial Example.anonymous = Some "U"
  /\ profileInitial {| isAuthenticated := true; userId := Some "alice";
                       userEmail := Some "  " |} = Some EmptyString.
Proof.
  destruct (profileInitial_cases (HomePage (Some Scenario.session))) as (_ & _ & Hfirst).
  destruct (Hfirst " " "a"%char "lice@example.com" eq_refl eq_refl eq_refl)
    as [_ Hletter].
  destruct (profileInitial_cases Example.anonymous) as (Hnone & _).
  destruct (profileInitial_cases {| isAuthenticated := true; userId := Some "alice";
                                    userEmail := Some "  " |}) as (_ & Hblank & _).
  split; [exact (Hletter eq_refl)|]. split; [exact (Hnone eq_refl)|].
  exact (Hblank "  " eq_refl eq_refl).
Defined.

(** ** Signing in and out *)

Ltac run_browser :=
  unfold signInWithGoogle, handleSignOut, supabase_auth, inTab, getOrigin,
    router_refresh, mbind, MB_bind, mret, MB_ret, getState, setError,
    setAuthLoading, setSigningOut, modifyState;
  simpl.

(** X18. A sign-in attempt, from every state of the browser: exactly one
    OAuth call is made, for the provider google, with the callback
    address under the page's origin and the prompt of the chosen mode; the
    attempt never leaves the button loading; the error shown afterwards is
    the one of this attempt or none, an earlier one being cleared; the store,
    the items and the page are not touched. *)
Theorem signInWithGoogle_attempt (b : Browser) :
  auth_calls (signInWithGoogle b).2
  = auth_calls b
    ++ [SignInWithOAuth "google" (origin b +:+ "/auth/callback")
          match authMode (state (tab b)) with
          | signup => <["prompt" := "consent"]> (<["access_type" := "offline"]> ∅)
          | login => <["prompt" := "select_account"]> ∅
          end]
  /\ authLoading (state (tab (signInWithGoogle b).2)) = false
  /\ error (state (tab (signInWithGoogle b).2))
     = match auth_faults b with Some message :: _ => Some message | _ => None end
  /\ bookmarks (state (tab (signInWithGoogle b).2)) = bookmarks (state (tab b))
  /\ world (tab (signInWithGoogle b).2) = world (tab b)
  /\ refreshes (signInWithGoogle b).2 = refreshes b.
Proof.
  run_browser.
  destruct (auth_faults b) as [|[message|] rest]; simpl; split_and!; done.
Qed.

(** X19. Signing out, from every state of the browser: one sign-out call
    is made and the button never stays busy.  If the call fails, its message
    is shown, the session stays and the page is not refreshed; if it goes
    through, the session is gone, no error is shown and the page is refreshed
    once.  Either way the handler sends nothing to the store, posts nothing
    and leaves the items in the state. *)
Theorem handleSignOut_outcomes (b : Browser) :
  auth_calls (handleSignOut b).2 = auth_calls b ++ [SignOut]
  /\ signingOut (state (tab (handleSignOut b).2)) = false
  /\ bookmarks (state (tab (handleSignOut b).2)) = bookmarks (state (tab b))
  /\ requests (world (tab (handleSignOut b).2)) = requests (world (tab b))
  /\ posted (world (tab (handleSignOut b).2)) = posted (world (tab b))
  /\ db (world (tab (handleSignOut b).2)) = db (world (tab b))
  /\ (forall message rest,
        auth_faults b = Some message :: rest ->
        error (state (tab (handleSignOut b).2)) = Some message
        /\ auth_uid (world (tab (handleSignOut b).2)) = auth_uid (world (tab b))
        /\ refreshes (handleSignOut b).2 = refreshes b)
  /\ ((auth_faults b = [] \/ exists rest, auth_faults b = None :: rest) ->
      error (state (tab (handleSignOut b).2)) = None
      /\ auth_uid (world (tab (handleSignOut b).2)) = None
      /\ refreshes (handleSignOut b).2 = S (refreshes b)).
Proof.
  run_browser.
  destruct (auth_faults b) as [|[message|] rest]; simpl; split_and!; try done.
  - by intros ? ? [= <- <-].
  - intros [?|[? ?]]; done.
Qed.

Lemma handleSignOut_outcomes_witness :
  auth_faults Scenario.browser_down = [Some "Network request failed"]
  /\ error (state (tab (handleSignOut Scenario.browser_down).2))
     = Some "Network request failed"
  /\ refreshes (handleSignOut Scenario.browser_down).2 = 0%nat
  /\ auth_faults Scenario.browser0 = []
  /\ auth_uid (world (tab (handleSignOut Scenario.browser0).2)) = None
  /\ refreshes (handleSignOut Scenario.browser0).2 = 1%nat.
Proof.
  destruct (handleSignOut_outcomes Scenario.browser_down)
    as (_ & _ & _ & _ & _ & _ & Hfail & _).
  destruct (Hfail _ _ eq_refl) as (He & _ & Hr).
  destruct (handleSignOut_outcomes Scenario.browser0)
    as (_ & _ & _ & _ & _ & _ & _ & Hok).
  destruct (Hok (or_introl eq_refl)) as (_ & Hu & Hr').
  split_and!; done.
Defined.

(** ** The earlier iteration *)

Lemma notifyTabs_world_ext (props : Props) (t t' : Tab) :
  world t = world t' -> world (notifyTabs props t).2 = world (notifyTabs props t').2.
Proof.
  intros Hw. unfold notifyTabs. run. rewrite Hw.
  destruct (userId props) as [u|]; [|done].
  destruct (negb (JS.truthy u) || negb (BroadcastChannel_in_window (world t')))%bool;
    simpl; by rewrite ?Hw.
Qed.

Lemma Legacy_handleDelete_served (props : Props) (id : string) (t : Tab) :
  served (world t) ->
  Legacy.handleDelete props id t
  = notifyTabs props
      {| state := with_bookmarks
                    (List.filter
                       (fun bookmark => negb (String.eqb (Bookmark.id bookmark) id))
                       (bookmarks (state t)))
                    (with_error None (state t));
         world := (store_delete id (issued (Delete_eq "id" id) (world t))).2 |}.
Proof.
  intros Hs. unfold Legacy.handleDelete, supabase_delete_eq_id. run.
  by rewrite supabase_request_served.
Qed.

Lemma Legacy_handleDelete_refused (props : Props) (id : string) (t : Tab)
    (message : string) :
  refused (world t) message ->
  Legacy.handleDelete props id t
  = (tt, {| state := with_error (Some message) (with_error None (state t));
            world := issued (Delete_eq "id" id) (world t) |}).
Proof.
  intros Hr. unfold Legacy.handleDelete, supabase_delete_eq_id. run.
  by rewrite (supabase_request_refused _ _ _ message).
Qed.

(** X20. The dialog changes when a deletion happens, not what it does:
    asking for the deletion of a bookmark and confirming it leaves the same
    items, the same error, the same table, the same requests and the same
    broadcasts as the earlier iteration's direct delete of its id. *)
Theorem confirmed_delete_is_Legacy_delete (props : Props) (x : Bookmark) (t : Tab) :
  bookmarks (state_after (requestDelete x ;; confirmDelete props) t)
  = bookmarks (state_after (Legacy.handleDelete props (Bookmark.id x)) t)
  /\ error (state_after (requestDelete x ;; confirmDelete props) t)
     = error (state_after (Legacy.handleDelete props (Bookmark.id x)) t)
  /\ deleteTarget (state_after (requestDelete x ;; confirmDelete props) t)
     = match error (state_after (Legacy.handleDelete props (Bookmark.id x)) t) with
       | Some _ => Some x
       | None => None
       end
  /\ world_after (requestDelete x ;; confirmDelete props) t
     = world_after (Legacy.handleDelete props (Bookmark.id x)) t.
Proof.
  unfold state_after, world_after, confirmDelete.
  change ((requestDelete x ;; handleDelete props) t)
    with (handleDelete props
            {| state := with_deleteTarget (Some x) (state t); world := world t |}).
  destruct (served_or_refused (world t)) as [Hs|[message Hr]].
  - rewrite (handleDelete_served _ _ x) by done.
    rewrite Legacy_handleDelete_served by done.
    rewrite !notifyTabs_state. simpl. split_and!; try done.
    by apply notifyTabs_world_ext.
  - rewrite (handleDelete_refused _ _ x message) by done.
    by rewrite (Legacy_handleDelete_refused _ _ _ message).
Qed.

Lemma Legacy_handleAdd_valid `{Host} (props : Props) (t : Tab) :
  JS.trim (title (state t)) <> EmptyString ->
  JS.trim (url (state t)) <> EmptyString ->
  Legacy.handleAdd props t
  = (r ← supabase_insert
           (<["title" := JS.trim (title (state t))]>
              (<["url" := JS.trim (url (state t))]> ∅));
     setLoading false;;
     match Response.error r with
     | Some message => setError (Some message)
     | None => setTitle "";; setUrl "";; loadBookmarks props;; notifyTabs props
     end)
      {| state := with_loading true (with_error None (state t)); world := world t |}.
Proof.
  intros Ht Hu. unfold Legacy.handleAdd. run.
  destruct (JS.truthy (JS.trim (title (state t)))) eqn:Htt; simpl.
  2: { by apply truthy_false in Htt. }
  destruct (JS.truthy (JS.trim (url (state t)))) eqn:Hut; simpl.
  2: { by apply truthy_false in Hut. }
  done.
Qed.

Lemma Legacy_handleAdd_blank `{Host} (props : Props) (t : Tab) :
  JS.trim (title (state t)) = EmptyString \/ JS.trim (url (state t)) = EmptyString ->
  Legacy.handleAdd props t
  = (tt, {| state := with_error (Some "Title and URL are required.")
                       (with_error None (state t));
            world := world t |}).
Proof.
  intros Hblank. unfold Legacy.handleAdd. run.
  destruct Hblank as [-> | ->]; simpl; [done|]. by rewrite orb_true_r.
Qed.

Lemma Legacy_handleAdd_requests `{Host} (props : Props) (t : Tab) :
  JS.trim (title (state t)) <> EmptyString ->
  JS.trim (url (state t)) <> EmptyString ->
  exists rest,
    requests (world_after (Legacy.handleAdd props) t)
    = requests (world t)
      ++ Insert (<["title" := JS.trim (title (state t))]>
                   (<["url" := JS.trim (url (state t))]> ∅)) :: rest.
Proof.
  intros Ht Hu. unfold world_after. rewrite Legacy_handleAdd_valid by done. run.
  set (values := <["title" := _]> _).
  unfold supabase_insert.
  destruct (served_or_refused (world t)) as [Hs|[message Hr]].
  2: { rewrite (supabase_request_refused _ _ _ message) by done. run. by exists []. }
  rewrite supabase_request_served by done. simpl.
  set (w1 := issued (Insert values) (world t)).
  assert (Hreq : requests (store_insert values w1).2
                 = requests (world t) ++ [Insert values]).
  { by rewrite store_insert_requests. }
  destruct (Response.error (store_insert values w1).1) eqn:He; run.
  { exists []. by rewrite Hreq. }
  set (t2 := {| state := _; world := _ |}).
  pose proof (notifyTabs_requests props (loadBookmarks props t2).2) as Hn.
  unfold world_after in Hn. rewrite Hn. clear Hn.
  pose proof (loadBookmarks_requests props t2) as Hl.
  unfold world_after in Hl. subst t2. simpl in Hl. rewrite Hreq in Hl.
  destruct Hl as [-> | ->]; [by exists []|].
  eexists. by rewrite <- app_assoc.
Qed.

(** X21. The earlier iteration of create checks only for blanks: with a
    blank title or a blank url it sends nothing and asks for both; with
    neither blank its first request is the insert of the trimmed title and
    of the trimmed url as typed, whether or not that text is a URL. *)
Theorem Legacy_handleAdd_sends_any_text `{Host} (props : Props) (t : Tab) :
  (JS.trim (title (state t)) = EmptyString \/ JS.trim (url (state t)) = EmptyString ->
   Legacy.handleAdd props t
   = (tt, {| state := with_error (Some "Title and URL are required.")
                        (with_error None (state t));
             world := world t |}))
  /\ (JS.trim (title (state t)) <> EmptyString ->
      JS.trim (url (state t)) <> EmptyString ->
      exists rest,
        requests (world_after (Legacy.handleAdd props) t)
        = requests (world t)
          ++ Insert (<["title" := JS.trim (title (state t))]>
                       (<["url" := JS.trim (url (state t))]> ∅)) :: rest).
Proof.
  split.
  - apply Legacy_handleAdd_blank.
  - apply Legacy_handleAdd_requests.
Qed.

Lemma Legacy_handleAdd_sends_any_text_witness :
  JS.trim (title (state Example.tab_no_scheme)) <> EmptyString
  /\ JS.trim (url (state Example.tab_no_scheme)) <> EmptyString
  /\ exists rest,
       requests (world_after (Legacy.handleAdd Example.props) Example.tab_no_scheme)
       = requests (world Example.tab_no_scheme)
         ++ Insert (<["title" := JS.trim (title (state Example.tab_no_scheme))]>
                      (<["url" := JS.trim (url (state Example.tab_no_scheme))]> ∅))
            :: rest.
Proof.
  assert (Ht : JS.trim (title (state Example.tab_no_scheme)) <> EmptyString)
    by discriminate.
  assert (Hu : JS.trim (url (state Example.tab_no_scheme)) <> EmptyString)
    by discriminate.
  split; [exact Ht|]. split; [exact Hu|].
  exact (proj2 (Legacy_handleAdd_sends_any_text Example.props Example.tab_no_scheme)
           Ht Hu).
Defined.

(** ** The empty-state message *)

(** X22. The message "No bookmarks yet" is shown exactly when no item
    matches the search, so also when there are items and the search hides
    them all; with a query of white space only it is shown exactly when
    there are no items. *)
Theorem emptyStateShown_iff `{Host} (s : State) :
  (emptyStateShown s = true <->
   forall b, In b (bookmarks s) -> matchesSearch s b = false)
  /\ (all_whitespace (search s) = true ->
      (emptyStateShown s = true <-> bookmarks s = [])).
Proof.
  assert (Hlen : emptyStateShown s = true <-> filteredBookmarks s = []).
  { unfold emptyStateShown. rewrite Nat.eqb_eq. apply length_zero_iff_nil. }
  split.
  - rewrite Hlen. split.
    + intros Hnil b Hb. destruct (matchesSearch s b) eqn:Hm; [|done].
      assert (Hin : In b (filteredBookmarks s)).
      { apply filter_In. split; [|done].
        eapply Permutation_in; [symmetry; apply sort_Permutation | exact Hb]. }
      rewrite Hnil in Hin. destruct Hin.
    + intros Hnone. destruct (filteredBookmarks s) as [|b l] eqn:Hf; [done|].
      assert (Hin : In b (filteredBookmarks s)) by (rewrite Hf; by left).
      pose proof (In_filteredBookmarks s b Hin) as Hb.
      apply filter_In in Hin as [_ Hm]. by rewrite (Hnone b Hb) in Hm.
  - intros Hws. rewrite Hlen.
    assert (Hall : forall b, matchesSearch s b = true).
    { intros b. unfold matchesSearch. by rewrite (trim_all_whitespace _ Hws). }
    unfold filteredBookmarks. rewrite filter_all by done. unfold sortedBookmarks.
    split; intros Hnil.
    + apply Permutation_nil. rewrite <- Hnil. apply sort_Permutation.
    + by rewrite Hnil.
Qed.

Lemma emptyStateShown_iff_witness :
  all_whitespace (search Example.state_blank) = true
  /\ (emptyStateShown Example.state_blank = true <-> bookmarks Example.state_blank = [])
  /\ (emptyStateShown (with_search "zzz" Example.state0) = true <->
      forall b, In b (bookmarks (with_search "zzz" Example.state0)) ->
                matchesSearch (with_search "zzz" Example.state0) b = false).
Proof.
  destruct (emptyStateShown_iff Example.state_blank) as [_ Hblank].
  destruct (emptyStateShown_iff (with_search "zzz" Example.state0)) as [Hiff _].
  split; [reflexivity|]. split; [exact (Hblank eq_refl) | exact Hiff].
Defined.

(** * Create: what is checked, and who names the owner *)

Lemma handleAdd_requests_valid `{Host} (props : Props) (t : Tab) (u : URL) :
  valid_input (state t) u ->
  exists rest,
    requests (world_after (handleAdd props) t)
    = requests (world t) ++ Insert (insert_values (state t) u) :: rest
    /\ forall v, ~ In (Insert v) rest.
Proof.
  intros Hv. unfold world_after. rewrite (handleAdd_valid _ _ u) by done. run.
  set (values := insert_values (state t) u).
  unfold supabase_insert.
  destruct (served_or_refused (world t)) as [Hs|[message Hr]].
  2: { rewrite (supabase_request_refused _ _ _ message) by done. run.
       exists []. split; [done | by intros v []]. }
  rewrite supabase_request_served by done. simpl.
  set (w1 := issued (Insert values) (world t)).
  assert (Hreq : requests (store_insert values w1).2
                 = requests (world t) ++ [Insert values]).
  { by rewrite store_insert_requests. }
  destruct (Response.error (store_insert values w1).1) eqn:He; run.
  { exists []. rewrite Hreq. split; [done | by intros v []]. }
  set (t2 := {| state := _; world := _ |}).
  pose proof (notifyTabs_requests props (loadBookmarks props t2).2) as Hn.
  unfold world_after in Hn. rewrite Hn. clear Hn.
  pose proof (loadBookmarks_requests props t2) as Hl.
  unfold world_after in Hl. subst t2. simpl in Hl. rewrite Hreq in Hl.
  destruct Hl as [-> | ->].
  - exists []. split; [done | by intros v []].
  - exists [Select "id,title,url,created_at" "created_at" false].
    rewrite <- app_assoc. split; [done|]. intros v [Hv'|[]]. discriminate.
Qed.

(** The trigger runs before the insert policy and the policy before the
    not-null constraints: with a session, a command that carries a title and
    a url is accepted whatever owner it carries, and the row gets the
    caller. *)
Lemma store_insert_overrides_owner (values : gmap string string) (w : World)
    (uid ti ur : string) :
  auth_uid w = Some uid ->
  values !! "title" = Some ti ->
  values !! "url" = Some ur ->
  store_insert values w
  = (Response.mk None None,
     with_serial (S (serial w))
       (with_db (db w ++ [Schema.mk (gen_random_uuid w (serial w)) uid ti ur (now w)]) w)).
Proof.
  intros Hu Hti Hur.
  unfold store_insert, set_bookmark_user_id, policy_insert_own, auth_uid_eq. simpl.
  rewrite Hu, Hti, Hur. by rewrite String.eqb_refl.
Qed.

(** C1 as stated fails, for both iterations of create.  In the current
    one the url is trimmed before it is parsed: a url with a no-break space
    before it does not parse as typed, yet [handleAdd] raises no error and
    sends the insert of the trimmed address.  The earlier one does not parse
    at all: an address without a scheme does not parse, yet it is inserted
    as typed. *)
Lemma handleAdd_untrimmed_url_counterexample :
  JS.trim (title (state Scenario.tab_nbsp)) <> EmptyString
  /\ URL_parse (url (state Scenario.tab_nbsp)) = None
  /\ error (state_after (handleAdd Example.props) Scenario.tab_nbsp) = None
  /\ requests (world_after (handleAdd Example.props) Scenario.tab_nbsp)
     = [Insert (<["title" := "Docs"]> (<["url" := "https://example.com/docs"]> ∅));
        Select "id,title,url,created_at" "created_at" false]
  /\ db (world_after (handleAdd Example.props) Scenario.tab_nbsp)
     = Example.rows
       ++ [Schema.mk "gen-0" Example.alice "Docs" "https://example.com/docs" 400]
  /\ URL_parse (url (state Example.tab_no_scheme)) = None
  /\ URL_parse (JS.trim (url (state Example.tab_no_scheme))) = None
  /\ error (state_after (Legacy.handleAdd Example.props) Example.tab_no_scheme) = None
  /\ requests (world_after (Legacy.handleAdd Example.props) Example.tab_no_scheme)
     = [Insert (<["title" := "Docs"]> (<["url" := "example.com/docs"]> ∅));
        Select "id,title,url,created_at" "created_at" false]
  /\ db (world_after (Legacy.handleAdd Example.props) Example.tab_no_scheme)
     = Example.rows ++ [Schema.mk "gen-0" Example.alice "Docs" "example.com/docs" 400].
Proof.
  split; [discriminate|]. split_and!; reflexivity.
Qed.

(** C1 (as amended). In the current [handleAdd] (lines 383-423), whenever
    the trimmed title is empty, or the TRIMMED url does not parse as an
    absolute URL, or it parses with a scheme that is neither http nor https,
    create ends with one of its validation messages and has sent nothing: no
    request, no broadcast, the world is as it was.  The earlier [handleAdd]
    (lines 109-136) checks for blanks only: with a trimmed title or a trimmed
    url that is empty it ends with its validation message and has sent
    nothing, and with neither empty its first request is the insert of the
    trimmed title and the trimmed url, whether the url parses or not. *)
Theorem handleAdd_invalid_input_rejected `{Host} (props : Props) (t : Tab) :
  (JS.trim (title (state t)) = EmptyString
   \/ URL_parse (JS.trim (url (state t))) = None
   \/ (exists u, URL_parse (JS.trim (url (state t))) = Some u
                 /\ protocol u <> "http:" /\ protocol u <> "https:") ->
   ValidationError (error (state_after (handleAdd props) t))
   /\ world_after (handleAdd props) t = world t
   /\ requests (world_after (handleAdd props) t) = requests (world t)
   /\ bookmarks (state_after (handleAdd props) t) = bookmarks (state t))
  /\ (JS.trim (title (state t)) = EmptyString
      \/ JS.trim (url (state t)) = EmptyString ->
      ValidationError (error (state_after (Legacy.handleAdd props) t))
      /\ world_after (Legacy.handleAdd props) t = world t
      /\ requests (world_after (Legacy.handleAdd props) t) = requests (world t)
      /\ bookmarks (state_after (Legacy.handleAdd props) t) = bookmarks (state t))
  /\ (JS.trim (title (state t)) <> EmptyString ->
      JS.trim (url (state t)) <> EmptyString ->
      exists rest,
        requests (world_after (Legacy.handleAdd props) t)
        = requests (world t)
          ++ Insert (<["title" := JS.trim (title (state t))]>
                       (<["url" := JS.trim (url (state t))]> ∅)) :: rest).
Proof.
  split; [|split].
  - intros Hbad. unfold handleAdd, ValidationError. run.
    destruct (JS.truthy (JS.trim (title (state t)))) eqn:Htitle; simpl.
    2: { run. destruct t; auto. }
    destruct (JS.truthy (JS.trim (url (state t)))) eqn:Hurl; simpl.
    2: { run. destruct t; auto. }
    destruct (URL_parse (JS.trim (url (state t)))) as [parsedUrl|] eqn:Hparse.
    2: { run. destruct t; auto 6. }
    destruct Hbad as [Hb|[Hb|(u & Hu & Hhttp & Hhttps)]].
    + rewrite Hb in Htitle. discriminate.
    + discriminate.
    + injection Hu as <-.
      apply eqb_false in Hhttp, Hhttps. rewrite Hhttp, Hhttps. simpl.
      run. destruct t; auto 6.
  - intros Hblank. unfold state_after, world_after, ValidationError.
    rewrite Legacy_handleAdd_blank by done. simpl. auto.
  - apply Legacy_handleAdd_requests.
Qed.

Lemma handleAdd_invalid_input_rejected_witness :
  (exists u,
     URL_parse (JS.trim (url (with_url " ftp://example.com/docs "
                                (with_title "Docs" Example.state0)))) = Some u
     /\ protocol u <> "http:" /\ protocol u <> "https:")
  /\ ValidationError
       (error (state_after (handleAdd Example.props)
                 {| state := with_url " ftp://example.com/docs "
                               (with_title "Docs" Example.state0);
                    world := Example.world0 |}))
  /\ world_after (handleAdd Example.props)
       {| state := with_url " ftp://example.com/docs "
                     (with_title "Docs" Example.state0);
          world := Example.world0 |}
     = Example.world0
  /\ exists rest,
       requests (world_after (Legacy.handleAdd Example.props)
                   {| state := with_url " ftp://example.com/docs "
                                 (with_title "Docs" Example.state0);
                      world := Example.world0 |})
       = Insert (<["title" := "Docs"]> (<["url" := "ftp://example.com/docs"]> ∅))
         :: rest.
Proof.
  assert (Hbad : exists u,
            URL_parse (JS.trim (url (with_url " ftp://example.com/docs "
                                       (with_title "Docs" Example.state0)))) = Some u
            /\ protocol u <> "http:" /\ protocol u <> "https:").
  { eexists. split; [vm_compute; reflexivity|]. split; discriminate. }
  destruct (handleAdd_invalid_input_rejected Example.props
              {| state := with_url " ftp://example.com/docs "
                            (with_title "Docs" Example.state0);
                 world := Example.world0 |})
    as (Hnew & _ & Hold).
  destruct (Hnew (or_intror (or_intror Hbad))) as (He & Hw & _).
  split; [exact Hbad|]. split; [exact He|]. split; [exact Hw|].
  apply Hold; discriminate.
Defined.

(** C6. For a title that is not blank and a url that parses with scheme
    http or https, the first request of [handleAdd] is the insert of exactly
    two fields: the trimmed title, and the text of the parsed URL rather than
    what the user typed.  It names no owner, and no other insert follows.
    The store alone names the owner: the before-insert trigger puts the
    caller of the session on the row before the insert policy looks at it, so
    the owner-less command of a signed-in caller is accepted and its row
    belongs to the caller; a command that does carry an owner gets the caller
    all the same; every accepted insert adds one row, owned by the caller;
    and without a session nothing is inserted. *)
Theorem handleAdd_insert_payload `{Host} (props : Props) (t : Tab) (u : URL) :
  JS.trim (title (state t)) <> EmptyString ->
  URL_parse (JS.trim (url (state t))) = Some u ->
  protocol u = "http:" \/ protocol u = "https:" ->
  let values : gmap string string :=
    <["title" := JS.trim (title (state t))]> (<["url" := URL_toString u]> ∅) in
  (exists rest,
     requests (world_after (handleAdd props) t)
     = requests (world t) ++ Insert values :: rest
     /\ forall v, ~ In (Insert v) rest)
  /\ values !! "title" = Some (JS.trim (title (state t)))
  /\ values !! "url" = Some (href u)
  /\ (forall k, k <> "title" -> k <> "url" -> values !! k = None)
  /\ values !! "user_id" = None
  /\ values !! "owner" = None
  /\ (forall (v : gmap string string) (w : World),
        Response.error (store_insert v w).1 = None ->
        exists r, db (store_insert v w).2 = db w ++ [r]
                  /\ Some (Schema.user_id r) = auth_uid w)
  /\ (forall uid, auth_uid (world t) = Some uid -> served (world t) ->
        Response.error (store_insert values (issued (Insert values) (world t))).1 = None
        /\ db (world_after (handleAdd props) t)
           = db (world t)
             ++ [Schema.mk (gen_random_uuid (world t) (serial (world t))) uid
                   (JS.trim (title (state t))) (href u) (now (world t))])
  /\ (forall (v : gmap string string) (w : World) (uid ti ur : string),
        auth_uid w = Some uid ->
        v !! "title" = Some ti ->
        v !! "url" = Some ur ->
        Response.error (store_insert v w).1 = None
        /\ db (store_insert v w).2
           = db w ++ [Schema.mk (gen_random_uuid w (serial w)) uid ti ur (now w)])
  /\ (forall (v : gmap string string) (w : World),
        auth_uid w = None ->
        Response.error (store_insert v w).1 <> None /\ (store_insert v w).2 = w).
Proof.
  intros Htitle Hparse Hproto values.
  assert (Hv : valid_input (state t) u) by done.
  split_and!.
  - apply (handleAdd_requests_valid props t u Hv).
  - done.
  - done.
  - intros k Hk1 Hk2. subst values. by rewrite !lookup_insert_ne, lookup_empty.
  - done.
  - done.
  - intros v w He. destruct (store_insert_owner v w He) as (r & Hdb & Hu & _).
    eauto.
  - intros uid Hu Hs. split.
    + by rewrite (store_insert_overrides_owner _ _ uid (JS.trim (title (state t)))
                    (href u)).
    + unfold world_after. rewrite (handleAdd_inserted _ _ u uid) by done.
      by rewrite notifyTabs_db, loadBookmarks_db.
  - intros v w uid ti ur Hu Hti Hur.
    by rewrite (store_insert_overrides_owner v w uid ti ur).
  - intros v w Hu. by destruct (store_insert_no_session v w Hu).
Qed.

Lemma handleAdd_insert_payload_witness :
  JS.trim (title (state Example.tab_docs)) <> EmptyString
  /\ URL_parse (JS.trim (url (state Example.tab_docs)))
     = Some {| protocol := "https:"; href := "https://example.com/docs" |}
  /\ (exists rest,
        requests (world_after (handleAdd Example.props) Example.tab_docs)
        = requests (world Example.tab_docs)
          ++ Insert (<["title" := "Docs"]> (<["url" := "https://example.com/docs"]> ∅))
             :: rest
        /\ forall v, ~ In (Insert v) rest)
  /\ db (world_after (handleAdd Example.props) Example.tab_docs)
     = Example.rows
       ++ [Schema.mk "gen-0" Example.alice "Docs" "https://example.com/docs" 400]
  /\ db (store_insert
           (<["user_id" := Example.bob]>
              (<["title" := "Docs"]> (<["url" := "https://example.com/docs"]> ∅)))
           Example.world0).2
     = Example.rows
       ++ [Schema.mk "gen-0" Example.alice "Docs" "https://example.com/docs" 400].
Proof.
  assert (Ht : JS.trim (title (state Example.tab_docs)) <> EmptyString) by discriminate.
  assert (Hs : served (world Example.tab_docs)) by (by left).
  assert (Hti : (<["user_id" := Example.bob]>
                   (<["title" := "Docs"]> (<["url" := "https://example.com/docs"]> ∅))
                 : gmap string string) !! "title" = Some "Docs") by reflexivity.
  assert (Hur : (<["user_id" := Example.bob]>
                   (<["title" := "Docs"]> (<["url" := "https://example.com/docs"]> ∅))
                 : gmap string string) !! "url" = Some "https://example.com/docs")
    by reflexivity.
  assert (Hp : URL_parse (JS.trim (url (state Example.tab_docs)))
               = Some {| protocol := "https:"; href := "https://example.com/docs" |})
    by reflexivity.
  destruct (handleAdd_insert_payload Example.props Example.tab_docs
              {| protocol := "https:"; href := "https://example.com/docs" |}
              Ht Hp (or_intror eq_refl))
    as (Hreq & _ & _ & _ & _ & _ & _ & Hown & Hany & _).
  split; [exact Ht|]. split; [exact Hp|]. split; [exact Hreq|].
  split.
  - exact (proj2 (Hown Example.alice eq_refl Hs)).
  - exact (proj2 (Hany _ Example.world0 Example.alice _ _ eq_refl Hti Hur)).
Defined.
